(** * World2Discrete: the environment core of WorldOptim

    A shallow embedding of [worldoptim/environments/gym_envs/world2_discrete.py].
    The environment is a Python object whose methods mutate its attributes and
    may raise; it is modelled by a record [Env] and a state monad in which an
    exception leaves the state as it was when it was raised.  The dynamical
    model and the cost function are collaborators of the environment: they
    are taken as interfaces ([BaseModel], [BaseCostFunction]).

    Numbers that Python holds as floats are exact rationals ([Q]) here;
    time counters are integers ([Z]). *)

From Stdlib Require Import ZArith QArith Qminmax String List Lia OrderedTypeEx.
From stdpp Require Import base option list list_numbers gmap strings sorting pretty.

Local Open Scope Z_scope.

(** ** Exceptions and the state monad *)

Inductive exn : Type :=
  | AssertionError (msg : string)
  | AttributeError
  | IndexError
  | KeyError (k : string)
  | TypeError
  | ValueError
  | ZeroDivisionError
  | ModelError          (* raised inside the dynamical model *)
  | CostError.          (* raised inside a cost function *)

Inductive res (A : Type) : Type :=
  | Ok (a : A)
  | Raise (ex : exn).
Arguments Ok {A} a.
Arguments Raise {A} ex.

(** A computation on a mutable object of type [S]: the object survives an
    exception with the mutations done so far. *)
Definition M (S A : Type) : Type := S -> res A * S.

Definition ret {S A} (a : A) : M S A := fun s => (Ok a, s).

Definition bind {S A B} (c : M S A) (k : A -> M S B) : M S B :=
  fun s => match c s with
           | (Ok a, s') => k a s'
           | (Raise ex, s') => (Raise ex, s')
           end.

Definition raise {S A} (ex : exn) : M S A := fun s => (Raise ex, s).
Definition get {S} : M S S := fun s => (Ok s, s).
Definition gets {S A} (f : S -> A) : M S A := fun s => (Ok (f s), s).
Definition modify {S} (f : S -> S) : M S unit := fun s => (Ok tt, f s).
Definition lift_res {S A} (r : res A) : M S A := fun s => (r, s).

Definition from_option {S A} (ex : exn) (o : option A) : M S A :=
  match o with
  | Some a => ret a
  | None => raise ex
  end.

Declare Scope py_scope.
Delimit Scope py_scope with py.
Notation "x <- c ;; k" := (bind c (fun x => k))
  (at level 100, c at next level, right associativity) : py_scope.
Notation "c ;;; k" := (bind c (fun _ => k))
  (at level 100, k at level 200, right associativity) : py_scope.
Local Open Scope py_scope.

(** [for x in l: body x] *)
Fixpoint for_each {S A} (l : list A) (body : A -> M S unit) : M S unit :=
  match l with
  | [] => ret tt
  | x :: l' => body x ;;; for_each l' body
  end.

(** [[f x for x in l]] *)
Fixpoint map_m {S A B} (f : A -> M S B) (l : list A) : M S (list B) :=
  match l with
  | [] => ret []
  | x :: l' => y <- f x ;; ys <- map_m f l' ;; ret (y :: ys)
  end.

(** ** Python list and dict helpers *)

(** [l.index(k)]: position of the first occurrence. *)
Fixpoint index (k : string) (l : list string) : option nat :=
  match l with
  | [] => None
  | x :: l' => if decide (x = k) then Some 0%nat else S <$> index k l'
  end.

(** [enumerate(l)] *)
Fixpoint enumerate_from {A} (n : nat) (l : list A) : list (nat * A) :=
  match l with
  | [] => []
  | x :: l' => (n, x) :: enumerate_from (S n) l'
  end.
Definition enumerate {A} (l : list A) : list (nat * A) := enumerate_from 0 l.

(** [range(a, b)] and [[x] * n] on integers. *)
Definition range (a b : Z) : list Z := seqZ a (b - a).
Definition times {A} (x : A) (n : Z) : list A := replicate (Z.to_nat n) x.

(** [sorted] on a list of strings (code-point order). *)
Definition str_le (a b : string) : Prop := String.leb a b = true.
#[global] Instance str_le_dec : RelDecision str_le.
Proof. intros a b. unfold str_le. apply _. Defined.
Definition sorted (l : list string) : list string := merge_sort str_le l.

(** [list(d.keys())] of a dict. *)
Definition keys {V} (d : gmap string V) : list string := elements (dom d).

(** [dict(zip(ks, vs))]: a later pair overrides an earlier one. *)
Definition dict_zip {V} (ks : list string) (vs : list V) : gmap string V :=
  fold_left (fun d kv => <[kv.1 := kv.2]> d) (zip ks vs) ∅.

(** ['cumulative_cost_{}'.format(id_cost)] *)
Definition cumulative_label (id_cost : nat) : string :=
  ("cumulative_cost_" +:+ pretty id_cost)%string.

(** [np.clip(x, lo, hi)] is [minimum(maximum(x, lo), hi)]. *)
Definition clip (x lo hi : Q) : Q := Qmin (Qmax x lo) hi.

Definition raw_state : Type := list Q.   (* a one-dimensional array *)
Definition action : Type := list Z.

(** ** The collaborators *)

(** The mutable part of a model object: its parameter dict and whatever else
    it keeps ([H] is chosen by the model). *)
Record ModelObj (H : Type) : Type := {
  current_internal_params : gmap string Q;
  internals : H;
}.
Arguments current_internal_params {H} _.
Arguments internals {H} _.

Definition set_current_internal_params {H} (p : gmap string Q) (m : ModelObj H) : ModelObj H :=
  {| current_internal_params := p; internals := internals m |}.

(** What the environment uses of a model (spec, section 6).  The methods run
    on the model object; [run_n_steps] gets the environment's [model_state]
    as it is, [None] included. *)
Record BaseModel (H : Type) : Type := {
  model_stochastic : bool;
  state_labels_for_agent : list string;
  internal_states_labels : list string;
  control_variables : list string;
  control_variables_ranges : list (Q * Q);
  model_reset : M (ModelObj H) unit;
  model_reset_same_model : M (ModelObj H) unit;
  _get_current_state : M (ModelObj H) raw_state;
  run_n_steps : option raw_state -> Z -> M (ModelObj H) (list raw_state);
}.
Arguments model_stochastic {H} _.
Arguments state_labels_for_agent {H} _.
Arguments internal_states_labels {H} _.
Arguments control_variables {H} _.
Arguments control_variables_ranges {H} _.
Arguments model_reset {H} _.
Arguments model_reset_same_model {H} _.
Arguments _get_current_state {H} _.
Arguments run_n_steps {H} _.

(** An elementary cost: [compute_cost(previous_state, state, label_to_id,
    action, others)] with [others = dict(jump_of=...)]; the states are the
    single row of the two-dimensional arrays it is given, the result holds
    one cost per row. *)
Record BaseCost : Type := {
  cost_compute_cost :
    list Q -> list Q -> gmap string nat -> action -> Z -> res (list Q);
}.

(** The aggregator: [compute_cost] returns the aggregated cost, the cost
    vector and the constraint flags. *)
Record BaseCostFunction : Type := {
  nb_costs : nat;
  cf_costs : list BaseCost;
  compute_cost :
    list Q -> list Q -> gmap string nat -> action -> Z ->
    res (Q * list Q * list bool);
}.

(** ** The environment object *)

Record History : Type := {
  h_env_states : list (list Q);
  h_model_states : list raw_state;
  h_env_timesteps : list Z;
  h_actions : list action;
  h_aggregated_costs : list Q;
  h_costs : list (list Q);
}.

Definition empty_history : History :=
  {| h_env_states := []; h_model_states := []; h_env_timesteps := [];
     h_actions := []; h_aggregated_costs := []; h_costs := [] |}.

Definition add_actions (l : list action) (h : History) : History :=
  {| h_env_states := h_env_states h; h_model_states := h_model_states h;
     h_env_timesteps := h_env_timesteps h; h_actions := h_actions h ++ l;
     h_aggregated_costs := h_aggregated_costs h; h_costs := h_costs h |}.
Definition add_env_states (l : list (list Q)) (h : History) : History :=
  {| h_env_states := h_env_states h ++ l; h_model_states := h_model_states h;
     h_env_timesteps := h_env_timesteps h; h_actions := h_actions h;
     h_aggregated_costs := h_aggregated_costs h; h_costs := h_costs h |}.
Definition add_env_timesteps (l : list Z) (h : History) : History :=
  {| h_env_states := h_env_states h; h_model_states := h_model_states h;
     h_env_timesteps := h_env_timesteps h ++ l; h_actions := h_actions h;
     h_aggregated_costs := h_aggregated_costs h; h_costs := h_costs h |}.
Definition add_model_states (l : list raw_state) (h : History) : History :=
  {| h_env_states := h_env_states h; h_model_states := h_model_states h ++ l;
     h_env_timesteps := h_env_timesteps h; h_actions := h_actions h;
     h_aggregated_costs := h_aggregated_costs h; h_costs := h_costs h |}.
Definition add_aggregated_costs (l : list Q) (h : History) : History :=
  {| h_env_states := h_env_states h; h_model_states := h_model_states h;
     h_env_timesteps := h_env_timesteps h; h_actions := h_actions h;
     h_aggregated_costs := h_aggregated_costs h ++ l; h_costs := h_costs h |}.
Definition add_costs (l : list (list Q)) (h : History) : History :=
  {| h_env_states := h_env_states h; h_model_states := h_model_states h;
     h_env_timesteps := h_env_timesteps h; h_actions := h_actions h;
     h_aggregated_costs := h_aggregated_costs h; h_costs := h_costs h ++ l |}.

Section World2Discrete.

Context {H : Type}.

(** The attributes of a [World2Discrete] object.  [t], [jump_of] and [costs]
    do not exist before the first [reset] / [step] ([None]). *)
Record Env : Type := {
  model : ModelObj H;
  stochastic : bool;
  simulation_horizon : Z;
  reset_same : bool;
  time_action_start : Z;
  percentage_shift : Q;
  dim_action : nat;
  cumulative_costs : list Q;
  state_labels : list string;
  label_to_id : gmap string nat;
  normalization_factors : list Q;
  time_resolution : Z;
  _max_episode_steps : Z;
  history : option History;
  model_state : option raw_state;
  previous_env_state : option (list Q);
  previous_env_state_labelled : option (gmap string Q);
  env_state : option (list Q);
  env_state_labelled : option (gmap string Q);
  t : option Z;
  jump_of : option Z;
  costs : option (list Q);
}.

Definition set_model x (e : Env) : Env :=
  Build_Env x (stochastic e) (simulation_horizon e) (reset_same e) (time_action_start e)
    (percentage_shift e) (dim_action e) (cumulative_costs e) (state_labels e) (label_to_id
    e) (normalization_factors e) (time_resolution e) (_max_episode_steps e) (history e)
    (model_state e) (previous_env_state e) (previous_env_state_labelled e) (env_state e)
    (env_state_labelled e) (t e) (jump_of e) (costs e).
Definition set_reset_same x (e : Env) : Env :=
  Build_Env (model e) (stochastic e) (simulation_horizon e) x (time_action_start e)
    (percentage_shift e) (dim_action e) (cumulative_costs e) (state_labels e) (label_to_id
    e) (normalization_factors e) (time_resolution e) (_max_episode_steps e) (history e)
    (model_state e) (previous_env_state e) (previous_env_state_labelled e) (env_state e)
    (env_state_labelled e) (t e) (jump_of e) (costs e).
Definition set_cumulative_costs x (e : Env) : Env :=
  Build_Env (model e) (stochastic e) (simulation_horizon e) (reset_same e)
    (time_action_start e) (percentage_shift e) (dim_action e) x (state_labels e)
    (label_to_id e) (normalization_factors e) (time_resolution e) (_max_episode_steps e)
    (history e) (model_state e) (previous_env_state e) (previous_env_state_labelled e)
    (env_state e) (env_state_labelled e) (t e) (jump_of e) (costs e).
Definition set_history x (e : Env) : Env :=
  Build_Env (model e) (stochastic e) (simulation_horizon e) (reset_same e)
    (time_action_start e) (percentage_shift e) (dim_action e) (cumulative_costs e)
    (state_labels e) (label_to_id e) (normalization_factors e) (time_resolution e)
    (_max_episode_steps e) x (model_state e) (previous_env_state e)
    (previous_env_state_labelled e) (env_state e) (env_state_labelled e) (t e) (jump_of e)
    (costs e).
Definition set_model_state x (e : Env) : Env :=
  Build_Env (model e) (stochastic e) (simulation_horizon e) (reset_same e)
    (time_action_start e) (percentage_shift e) (dim_action e) (cumulative_costs e)
    (state_labels e) (label_to_id e) (normalization_factors e) (time_resolution e)
    (_max_episode_steps e) (history e) x (previous_env_state e) (previous_env_state_labelled
    e) (env_state e) (env_state_labelled e) (t e) (jump_of e) (costs e).
Definition set_previous_env_state x (e : Env) : Env :=
  Build_Env (model e) (stochastic e) (simulation_horizon e) (reset_same e)
    (time_action_start e) (percentage_shift e) (dim_action e) (cumulative_costs e)
    (state_labels e) (label_to_id e) (normalization_factors e) (time_resolution e)
    (_max_episode_steps e) (history e) (model_state e) x (previous_env_state_labelled e)
    (env_state e) (env_state_labelled e) (t e) (jump_of e) (costs e).
Definition set_previous_env_state_labelled x (e : Env) : Env :=
  Build_Env (model e) (stochastic e) (simulation_horizon e) (reset_same e)
    (time_action_start e) (percentage_shift e) (dim_action e) (cumulative_costs e)
    (state_labels e) (label_to_id e) (normalization_factors e) (time_resolution e)
    (_max_episode_steps e) (history e) (model_state e) (previous_env_state e) x (env_state
    e) (env_state_labelled e) (t e) (jump_of e) (costs e).
Definition set_env_state x (e : Env) : Env :=
  Build_Env (model e) (stochastic e) (simulation_horizon e) (reset_same e)
    (time_action_start e) (percentage_shift e) (dim_action e) (cumulative_costs e)
    (state_labels e) (label_to_id e) (normalization_factors e) (time_resolution e)
    (_max_episode_steps e) (history e) (model_state e) (previous_env_state e)
    (previous_env_state_labelled e) x (env_state_labelled e) (t e) (jump_of e) (costs e).
Definition set_env_state_labelled x (e : Env) : Env :=
  Build_Env (model e) (stochastic e) (simulation_horizon e) (reset_same e)
    (time_action_start e) (percentage_shift e) (dim_action e) (cumulative_costs e)
    (state_labels e) (label_to_id e) (normalization_factors e) (time_resolution e)
    (_max_episode_steps e) (history e) (model_state e) (previous_env_state e)
    (previous_env_state_labelled e) (env_state e) x (t e) (jump_of e) (costs e).
Definition set_t x (e : Env) : Env :=
  Build_Env (model e) (stochastic e) (simulation_horizon e) (reset_same e)
    (time_action_start e) (percentage_shift e) (dim_action e) (cumulative_costs e)
    (state_labels e) (label_to_id e) (normalization_factors e) (time_resolution e)
    (_max_episode_steps e) (history e) (model_state e) (previous_env_state e)
    (previous_env_state_labelled e) (env_state e) (env_state_labelled e) x (jump_of e)
    (costs e).
Definition set_jump_of x (e : Env) : Env :=
  Build_Env (model e) (stochastic e) (simulation_horizon e) (reset_same e)
    (time_action_start e) (percentage_shift e) (dim_action e) (cumulative_costs e)
    (state_labels e) (label_to_id e) (normalization_factors e) (time_resolution e)
    (_max_episode_steps e) (history e) (model_state e) (previous_env_state e)
    (previous_env_state_labelled e) (env_state e) (env_state_labelled e) (t e) x (costs e).
Definition set_costs x (e : Env) : Env :=
  Build_Env (model e) (stochastic e) (simulation_horizon e) (reset_same e)
    (time_action_start e) (percentage_shift e) (dim_action e) (cumulative_costs e)
    (state_labels e) (label_to_id e) (normalization_factors e) (time_resolution e)
    (_max_episode_steps e) (history e) (model_state e) (previous_env_state e)
    (previous_env_state_labelled e) (env_state e) (env_state_labelled e) (t e) (jump_of e) x.

Context (mdl : BaseModel H) (cf : BaseCostFunction).

(** A call of a method of [self.model]. *)
Definition lift_model {A} (c : M (ModelObj H) A) : M Env A :=
  fun e => let (r, m') := c (model e) in (r, set_model m' e).

(** [self.model.current_internal_params[v]] and its assignment. *)
Definition get_param (v : string) : M Env Q :=
  e <- get ;; from_option (KeyError v) (current_internal_params (model e) !! v).

Definition set_param (v : string) (x : Q) : M Env unit :=
  modify (fun e =>
    set_model (set_current_internal_params
                 (<[v := x]> (current_internal_params (model e))) (model e)) e).

(** Modelled from the spec: [BaseEnv.__init__] (base_env.py is not among the
    sources).  It receives [dim_action=5] and leaves the state attributes
    unset, which is the case [_update_previous_env_state] and
    [_update_env_state] test with [is None] / [is not None]: on the very
    first update of an episode there is no previous state yet. *)
Definition base_env_unset {A} : option A := None.

(** [__init__] (lines 32-61).  [seed] only reaches [BaseEnv]. *)
Definition init (m : ModelObj H) (simulation_horizon time_action_start : Z)
    (percentage_shift : Q) (time_resolution : Z) : res Env :=
  let state_labels :=
    state_labels_for_agent mdl ++ map cumulative_label (seq 0 (nb_costs cf)) in
  if decide (time_resolution = 0) then Raise ZeroDivisionError
  else Ok
    {| model := m;
       stochastic := model_stochastic mdl;
       simulation_horizon := simulation_horizon;
       reset_same := false;
       time_action_start := time_action_start;
       percentage_shift := percentage_shift;
       dim_action := 5;
       cumulative_costs := replicate (nb_costs cf) 0%Q;
       state_labels := state_labels;
       label_to_id := dict_zip state_labels (seq 0 (length state_labels));
       normalization_factors := replicate (length state_labels) 1%Q;
       time_resolution := time_resolution;
       _max_episode_steps := simulation_horizon `div` time_resolution;
       history := None;
       model_state := base_env_unset;
       previous_env_state := base_env_unset;
       previous_env_state_labelled := base_env_unset;
       env_state := base_env_unset;
       env_state_labelled := base_env_unset;
       t := None;
       jump_of := None;
       costs := None |}.

(** [_update_previous_env_state] (lines 63-70) *)
Definition _update_previous_env_state : M Env unit :=
  e <- get ;;
  match env_state e with
  | Some s =>
      modify (set_previous_env_state (Some s)) ;;;
      l <- from_option AttributeError (env_state_labelled e) ;;
      modify (set_previous_env_state_labelled (Some l))
  | None => ret tt
  end.

(** [self.env_state_labelled[k] = x] *)
Definition labelled_set (k : string) (x : Q) : M Env unit :=
  e <- get ;;
  d <- from_option TypeError (env_state_labelled e) ;;
  modify (set_env_state_labelled (Some (<[k := x]> d))).

(** [_update_env_state] (lines 72-93) *)
Definition _update_env_state : M Env unit :=
  modify (set_env_state_labelled (Some ∅)) ;;;
  for_each (state_labels_for_agent mdl) (fun k =>
    i <- from_option ValueError (index k (internal_states_labels mdl)) ;;
    e <- get ;;
    s <- from_option TypeError (model_state e) ;;
    x <- from_option IndexError (s !! i) ;;
    labelled_set k x) ;;;
  for_each (seq 0 (nb_costs cf)) (fun id_cost =>
    e <- get ;;
    x <- from_option IndexError (cumulative_costs e !! id_cost) ;;
    labelled_set (cumulative_label id_cost) x) ;;;
  e <- get ;;
  d <- from_option TypeError (env_state_labelled e) ;;
  (if decide (sorted (keys d) = sorted (state_labels e)) then ret tt
   else raise (AssertionError "labels do not match")) ;;;
  s <- map_m (fun k => from_option (KeyError k) (d !! k)) (state_labels e) ;;
  modify (set_env_state (Some s)) ;;;
  e <- get ;;
  match previous_env_state e with
  | None =>
      modify (set_previous_env_state (Some s)) ;;;
      modify (set_previous_env_state_labelled (Some d))
  | Some _ => ret tt
  end.

(** [reset_same_model] (lines 95-102) *)
Definition reset_same_model : M Env unit := modify (set_reset_same true).

(** [_normalize_env_state] (lines 248-249): elementwise division of two
    arrays of the same length. *)
Definition _normalize_env_state (env_state : list Q) : M Env (list Q) :=
  e <- get ;;
  if decide (length env_state = length (normalization_factors e)) then
    ret (zip_with Qdiv env_state (normalization_factors e))
  else raise ValueError.

(** [update_with_action] (lines 146-164): the body of the loop, then the loop. *)
Definition update_with_action_body (action : action) (iv : nat * string) : M Env unit :=
  let '(i_v, v) := iv in
  a <- from_option IndexError (action !! i_v) ;;
  (if decide (a ∈ [-1; 0; 1]) then ret tt else raise (AssertionError "")) ;;;
  e <- get ;;
  (if decide (a = 1) then
     p <- get_param v ;;
     p' <- get_param v ;;
     set_param v (p + percentage_shift e * p')
   else if decide (a = -1) then
     p <- get_param v ;;
     p' <- get_param v ;;
     set_param v (p - percentage_shift e * p')
   else ret tt) ;;;
  p <- get_param v ;;
  r <- from_option IndexError (control_variables_ranges mdl !! i_v) ;;
  set_param v (clip p r.1 r.2).

Definition update_with_action (action : action) : M Env unit :=
  for_each (enumerate (control_variables mdl)) (update_with_action_body action).

(** The result of [step]: [(state, cost_aggregated, done, dict(costs=...,
    constraints=...))]; [done] is the integer 1 or 0 in the source. *)
Record StepOut : Type := {
  out_state : list Q;
  out_cost_aggregated : Q;
  out_done : bool;
  out_costs : list Q;
  out_constraints : list bool;
}.

(** [step], lines 189-201: the time jump, the scripted change of [NRUN] and
    one step of the model.  The call of [update_with_action] on line 193 is
    commented out in the source. *)
Definition step_advance : M Env unit :=
  e <- get ;;
  t0 <- from_option AttributeError (t e) ;;
  let j := Z.min (time_resolution e) (simulation_horizon e - t0) in
  modify (set_jump_of (Some j)) ;;;
  (if decide (t0 = 70) then set_param "NRUN" (1 # 4) else ret tt) ;;;
  e <- get ;;
  model_states <- lift_model (run_n_steps mdl (model_state e) 1) ;;
  s <- from_option IndexError (last model_states) ;;
  modify (set_model_state (Some s)) ;;;
  modify (set_t (Some (t0 + j))).

(** [step], lines 208-212: the elementary costs of the transition. *)
Definition elementary_costs (action : action) : M Env (list Q) :=
  map_m (fun c : BaseCost =>
    e <- get ;;
    previous <- from_option TypeError (previous_env_state e) ;;
    current <- from_option TypeError (env_state e) ;;
    r <- lift_res (cost_compute_cost c previous current (label_to_id e) action
                     (time_resolution e)) ;;
    from_option IndexError (head r)) (cf_costs cf).

(** [step], lines 213-214: [self.cumulative_costs[i] += costs[i]]. *)
Definition accumulate (costs : list Q) : M Env unit :=
  for_each (seq 0 (length costs)) (fun i =>
    e <- get ;;
    old <- from_option IndexError (cumulative_costs e !! i) ;;
    c <- from_option IndexError (costs !! i) ;;
    modify (set_cumulative_costs (<[i := (old + c)%Q]> (cumulative_costs e)))).

(** [self.history[key] += l] *)
Definition history_load : M Env History :=
  e <- get ;; from_option TypeError (history e).
Definition history_store (h : History) : M Env unit := modify (set_history (Some h)).

(** [step], lines 218-221 *)
Definition store_history (action : action) : M Env unit :=
  h <- history_load ;;
  j <- (e <- get ;; from_option AttributeError (jump_of e)) ;;
  history_store (add_actions (times action j) h) ;;;
  h <- history_load ;;
  e <- get ;;
  s <- from_option AttributeError (env_state e) ;;
  history_store (add_env_states (times s j) h) ;;;
  h <- history_load ;;
  e <- get ;;
  t1 <- from_option AttributeError (t e) ;;
  history_store (add_env_timesteps (range (t1 - j) t1) h) ;;;
  h <- history_load ;;
  e <- get ;;
  ms <- from_option AttributeError (model_state e) ;;
  history_store (add_model_states [ms] h).

(** [step], lines 225-242: the aggregated cost, its history, the result.
    [x / self.jump_of] is a NumPy division: it does not raise when
    [jump_of] is 0, and its value is then stored nowhere. *)
Definition step_finish (action : action) : M Env StepOut :=
  e <- get ;;
  previous <- from_option TypeError (previous_env_state e) ;;
  current <- from_option TypeError (env_state e) ;;
  j <- from_option AttributeError (jump_of e) ;;
  r <- lift_res (compute_cost cf previous current (label_to_id e) action j) ;;
  let '(cost_aggregated, costs, over_constraints) := r in
  h <- history_load ;;
  history_store (add_aggregated_costs (times (cost_aggregated / inject_Z j)%Q j) h) ;;;
  h <- history_load ;;
  history_store (add_costs (times (map (fun c => c / inject_Z j)%Q costs) j) h) ;;;
  modify (set_costs (Some costs)) ;;;
  e <- get ;;
  t1 <- from_option AttributeError (t e) ;;
  let done := bool_decide (simulation_horizon e <= t1) in
  o <- _normalize_env_state current ;;
  ret {| out_state := o; out_cost_aggregated := cost_aggregated; out_done := done;
         out_costs := costs; out_constraints := over_constraints |}.

(** [step] (lines 166-242) *)
Definition step (action : action) : M Env StepOut :=
  step_advance ;;;
  _update_previous_env_state ;;;
  _update_env_state ;;;
  costs <- elementary_costs action ;;
  accumulate costs ;;;
  _update_env_state ;;;
  store_history action ;;;
  step_finish action.

(** [reset], lines 116-139: everything before the warm-up loop. *)
Definition reset_begin : M Env unit :=
  modify (set_history (Some empty_history)) ;;;
  modify (set_t (Some 0)) ;;;
  modify (set_cumulative_costs (replicate (nb_costs cf) 0%Q)) ;;;
  e <- get ;;
  (if reset_same e then
     lift_model (model_reset_same_model mdl) ;;; modify (set_reset_same false)
   else lift_model (model_reset mdl)) ;;;
  s <- lift_model (_get_current_state mdl) ;;
  modify (set_model_state (Some s)) ;;;
  _update_previous_env_state ;;;
  _update_env_state ;;;
  h <- history_load ;;
  e <- get ;;
  es <- from_option AttributeError (env_state e) ;;
  history_store (add_env_states [es] h) ;;;
  h <- history_load ;;
  e <- get ;;
  ms <- from_option AttributeError (model_state e) ;;
  history_store (add_model_states [ms] h) ;;;
  h <- history_load ;;
  e <- get ;;
  t0 <- from_option AttributeError (t e) ;;
  history_store (add_env_timesteps [t0] h).

(** [reset], lines 141-142: [time_action_start] neutral steps. *)
Definition warm_up : M Env unit :=
  e <- get ;;
  for_each (range 0 (time_action_start e)) (fun _ =>
    e <- get ;;
    step (replicate (dim_action e) 0) ;;; ret tt).

(** [reset] (lines 104-144) *)
Definition reset : M Env (list Q) :=
  reset_begin ;;;
  warm_up ;;;
  e <- get ;;
  s <- from_option TypeError (env_state e) ;;
  _normalize_env_state s.

(** [sample_action] (lines 245-246); [rng i] is the position drawn in
    [[-1, 0, 1]] for component [i]. *)
Definition sample_action (rng : nat -> nat) : M Env action :=
  e <- get ;;
  ret (map (fun i => nth (rng i mod 3)%nat [-1; 0; 1] 0) (seq 0 (dim_action e))).

(** A control loop: one [step] per action of the list, in order (the
    [while not done] loop of the module's main block, with the actions
    fixed beforehand). *)
Definition play (actions : list action) : M Env (list StepOut) := map_m step actions.

End World2Discrete.
Arguments Env : clear implicits.

(** ** A small model and cost function

    A concrete pair of collaborators on which the environment can be run:
    a model with three internal variables, two of them shown to the agent,
    and two control variables; it counts the calls of [run_n_steps]. *)

Module Toy.

Definition params0 : gmap string Q :=
  <["NRUN" := 1%Q]> (<["BRN" := (1 # 25)%Q]> ∅).

Definition obj0 : ModelObj nat :=
  {| current_internal_params := params0; internals := 0%nat |}.

(** One step: [P] grows by the current [NRUN], [QL] by one. *)
Definition advance (m : ModelObj nat) (s : raw_state) : raw_state :=
  match s with
  | [p; polr; ql] =>
      [(p + default 0%Q (current_internal_params m !! "NRUN"))%Q; polr; (ql + 1)%Q]
  | _ => s
  end.

Definition world : BaseModel nat :=
  {| model_stochastic := false;
     state_labels_for_agent := ["P"; "QL"]%string;
     internal_states_labels := ["P"; "POLR"; "QL"]%string;
     control_variables := ["NRUN"; "BRN"]%string;
     control_variables_ranges := [(0%Q, 2%Q); (0%Q, 1%Q)];
     model_reset := fun _ => (Ok tt, obj0);
     model_reset_same_model := fun _ => (Ok tt, obj0);
     _get_current_state := fun m => (Ok [1%Q; 0%Q; 1%Q], m);
     run_n_steps := fun s n m =>
       match s with
       | Some s =>
           (Ok [advance m s],
            {| current_internal_params := current_internal_params m;
               internals := S (internals m) |})
       | None => (Raise ModelError, m)
       end |}.

(** Two elementary costs: the growth of the first and of the second
    component of the state over the transition. *)
Definition growth (i : nat) : BaseCost :=
  {| cost_compute_cost := fun previous current _ _ _ =>
       Ok [(default 0%Q (current !! i) - default 0%Q (previous !! i))%Q] |}.

Definition cost : BaseCostFunction :=
  {| nb_costs := 2;
     cf_costs := [growth 0; growth 1];
     compute_cost := fun previous current _ _ _ =>
       let c0 := (default 0%Q (current !! 0%nat) - default 0%Q (previous !! 0%nat))%Q in
       let c1 := (default 0%Q (current !! 1%nat) - default 0%Q (previous !! 1%nat))%Q in
       Ok ((c0 + c1)%Q, [c0; c1], [false; false]) |}.

(** The state an [M] computation leaves, and its value when it returns. *)
Definition exec {S A} (c : M S A) (s : S) : S := (c s).2.
Definition value {S A} (d : A) (c : M S A) (s : S) : A :=
  match (c s).1 with Ok a => a | Raise _ => d end.

Definition unset : Env nat :=
  {| model := obj0; stochastic := false; simulation_horizon := 0;
     reset_same := false; time_action_start := 0; percentage_shift := 0%Q;
     dim_action := 0; cumulative_costs := []; state_labels := [];
     label_to_id := ∅; normalization_factors := []; time_resolution := 0;
     _max_episode_steps := 0; history := None; model_state := None;
     previous_env_state := None; previous_env_state_labelled := None;
     env_state := None; env_state_labelled := None; t := None; jump_of := None;
     costs := None |}.

(** [World2Discrete(cost_function, model, simulation_horizon,
    time_action_start)] with the default shift and resolution. *)
Definition make (simulation_horizon time_action_start : Z) : Env nat :=
  match init world cost obj0 simulation_horizon time_action_start (1 # 20) 1 with
  | Ok e => e
  | Raise _ => unset
  end.

Definition neutral : action := [0; 0; 0; 0; 0].

End Toy.

(** The environment of the small model at the end of a warm-up of 70. *)
Definition toy_at_70 : Env nat :=
  Toy.exec (reset Toy.world Toy.cost) (Toy.make 200 70).

(** A result to fall back on when a [step] raises. *)
Definition toy_out : StepOut :=
  {| out_state := []; out_cost_aggregated := 0%Q; out_done := false;
     out_costs := []; out_constraints := [] |}.

(** A whole episode of three steps without warm-up, and the environment
    right after the first state update of the next [reset]. *)
Definition toy_first_episode : Env nat :=
  Toy.exec (play Toy.world Toy.cost [Toy.neutral; Toy.neutral; Toy.neutral])
    (Toy.exec (reset Toy.world Toy.cost) (Toy.make 3 0)).

Definition toy_second_episode : Env nat :=
  Toy.exec (reset_begin Toy.world Toy.cost) toy_first_episode.

(** * Reasoning about computations *)

Section MonadFacts.

Context {S : Type}.
Implicit Types s : S.

Lemma bind_Ok {A B} (c : M S A) (k : A -> M S B) s a s' :
  c s = (Ok a, s') -> bind c k s = k a s'.
Proof. intros Hc. unfold bind. by rewrite Hc. Qed.

Lemma bind_Raise {A B} (c : M S A) (k : A -> M S B) s ex s' :
  c s = (Raise ex, s') -> bind c k s = (Raise ex, s').
Proof. intros Hc. unfold bind. by rewrite Hc. Qed.

Lemma bind_inv {A B} (c : M S A) (k : A -> M S B) s b s'' :
  bind c k s = (Ok b, s'') -> exists a s', c s = (Ok a, s') /\ k a s' = (Ok b, s'').
Proof.
  unfold bind. destruct (c s) as [[a|ex] s']; intros Hk; [eauto | discriminate].
Qed.

Lemma from_option_inv {A} ex (o : option A) s a s' :
  from_option ex o s = (Ok a, s') -> o = Some a /\ s' = s.
Proof. destruct o; cbn; intros [= <- <-] || intros [=]; auto. Qed.

Lemma from_option_Some {A} ex (o : option A) a s :
  o = Some a -> from_option ex o s = (Ok a, s).
Proof. by intros ->. Qed.

Lemma for_each_app {A} (l1 l2 : list A) (body : A -> M S unit) s :
  for_each (l1 ++ l2) body s = bind (for_each l1 body) (fun _ => for_each l2 body) s.
Proof.
  revert s. induction l1 as [|x l1 IH]; intros s; cbn.
  - reflexivity.
  - change (bind (body x) (fun _ => for_each (l1 ++ l2) body) s =
            bind (bind (body x) (fun _ => for_each l1 body))
                 (fun _ => for_each l2 body) s).
    unfold bind. destruct (body x s) as [[[]|ex] s1]; [apply IH | reflexivity].
Qed.

(** ** Frames: what a computation leaves untouched, however it ends *)

Definition preserves {A X} (f : S -> X) (c : M S A) : Prop :=
  forall s, f (c s).2 = f s.

Lemma preserves_ret {A X} (f : S -> X) (a : A) : preserves f (ret a).
Proof. by intros s. Qed.

Lemma preserves_raise {A X} (f : S -> X) ex : preserves f (@raise S A ex).
Proof. by intros s. Qed.

Lemma preserves_get {X} (f : S -> X) : preserves f get.
Proof. by intros s. Qed.

Lemma preserves_lift_res {A X} (f : S -> X) (r : res A) : preserves f (lift_res r).
Proof. by intros s. Qed.

Lemma preserves_from_option {A X} (f : S -> X) ex (o : option A) :
  preserves f (from_option ex o).
Proof. by destruct o; intros s. Qed.

Lemma preserves_modify {X} (f : S -> X) (g : S -> S) :
  (forall s, f (g s) = f s) -> preserves f (modify g).
Proof. intros Hg s. apply Hg. Qed.

Lemma preserves_bind {A B X} (f : S -> X) (c : M S A) (k : A -> M S B) :
  preserves f c -> (forall a, preserves f (k a)) -> preserves f (bind c k).
Proof.
  intros Hc Hk s. unfold bind. specialize (Hc s).
  destruct (c s) as [[a|ex] s']; cbn in *; [|done].
  by rewrite Hk.
Qed.

Lemma preserves_for_each {A X} (f : S -> X) (l : list A) (body : A -> M S unit) :
  (forall x, preserves f (body x)) -> preserves f (for_each l body).
Proof.
  intros Hb. induction l as [|x l IH]; cbn.
  - apply preserves_ret.
  - apply preserves_bind; auto.
Qed.

Lemma preserves_map_m {A B X} (f : S -> X) (g : A -> M S B) (l : list A) :
  (forall x, preserves f (g x)) -> preserves f (map_m g l).
Proof.
  intros Hg. induction l as [|x l IH]; cbn.
  - apply preserves_ret.
  - apply preserves_bind; [auto|]. intros y.
    apply preserves_bind; [auto|]. intros ys. apply preserves_ret.
Qed.

Lemma preserves_Ok {A X} (f : S -> X) (c : M S A) s r s' :
  preserves f c -> c s = (r, s') -> f s' = f s.
Proof. intros Hc Hs. specialize (Hc s). by rewrite Hs in Hc. Qed.

(** A computation that only reads. *)
Definition reads {A} (c : M S A) : Prop := preserves id c.

Lemma reads_eq {A} (c : M S A) s r s' : reads c -> c s = (r, s') -> s' = s.
Proof. intros Hc Hs. exact (preserves_Ok id c s r s' Hc Hs). Qed.

(** ** Loops with an invariant *)

Lemma for_each_partial {A} (I : S -> Prop) (l : list A) (body : A -> M S unit) :
  (forall x s s', x ∈ l -> I s -> body x s = (Ok tt, s') -> I s') ->
  forall s s', I s -> for_each l body s = (Ok tt, s') -> I s'.
Proof.
  intros Hb. induction l as [|x l IH]; cbn; intros s s' Hs Hl.
  - by injection Hl as <-.
  - apply bind_inv in Hl as ([] & s1 & H1 & H2).
    eapply IH; [| |exact H2].
    + intros y u u' Hy. apply Hb. by right.
    + eapply Hb; [by left|exact Hs|exact H1].
Qed.

Lemma for_each_total {A} (I : list A -> S -> Prop) (l : list A) (body : A -> M S unit) :
  (forall pre x post s, l = pre ++ x :: post -> I pre s ->
     exists s', body x s = (Ok tt, s') /\ I (pre ++ [x]) s') ->
  forall s, I [] s -> exists s', for_each l body s = (Ok tt, s') /\ I l s'.
Proof.
  intros Hb.
  assert (Hgen : forall post pre s, l = pre ++ post -> I pre s ->
            exists s', for_each post body s = (Ok tt, s') /\ I l s').
  { induction post as [|x post IH]; intros pre s Hl Hs; cbn.
    - rewrite app_nil_r in Hl. subst pre. eauto.
    - destruct (Hb pre x post s Hl Hs) as (s1 & H1 & HI).
      destruct (IH (pre ++ [x]) s1) as (s2 & H2 & HI2); [by rewrite <- app_assoc|done|].
      exists s2. split; [|done]. by rewrite (bind_Ok _ _ _ _ _ H1). }
  intros s Hs. by apply (Hgen l []).
Qed.

End MonadFacts.

(** * Frames of the methods *)

Section Frames.

Context {H : Type} (mdl : BaseModel H) (cf : BaseCostFunction).
Implicit Types e : Env H.

(** [f] does not look at the attribute written by [set]. *)
Local Abbreviation indep f set := (forall x e, f (set x e) = f e).

Ltac frame_step :=
  first
    [ apply preserves_ret | apply preserves_raise | apply preserves_get
    | apply preserves_lift_res | apply preserves_from_option
    | apply preserves_modify; solve [auto]
    | apply preserves_bind | apply preserves_for_each | apply preserves_map_m
    | match goal with
      | |- preserves _ (match ?x with _ => _ end) => destruct x
      | |- preserves _ (if ?b then _ else _) => destruct b
      end ].
Ltac frame := repeat (intros; frame_step).

Lemma frame_lift_model {A X} (f : Env H -> X) (c : M (ModelObj H) A) :
  indep f set_model -> preserves f (lift_model c).
Proof.
  intros Hf e. unfold lift_model. destruct (c (model e)) as [r m']. apply Hf.
Qed.

Lemma frame_get_param {X} (f : Env H -> X) v : preserves f (get_param v).
Proof. unfold get_param. frame. Qed.

Lemma frame_set_param {X} (f : Env H -> X) v x :
  indep f set_model -> preserves f (set_param v x).
Proof. intros Hf. unfold set_param. apply preserves_modify. intros e. apply Hf. Qed.

Lemma frame_update_previous_env_state {X} (f : Env H -> X) :
  indep f set_previous_env_state -> indep f set_previous_env_state_labelled ->
  preserves f _update_previous_env_state.
Proof. intros. unfold _update_previous_env_state. frame. Qed.

Lemma frame_labelled_set {X} (f : Env H -> X) k x :
  indep f set_env_state_labelled -> preserves f (labelled_set k x).
Proof. intros. unfold labelled_set. frame. Qed.

Lemma frame_update_env_state {X} (f : Env H -> X) :
  indep f set_env_state_labelled -> indep f set_env_state ->
  indep f set_previous_env_state -> indep f set_previous_env_state_labelled ->
  preserves f (_update_env_state mdl cf).
Proof.
  intros. unfold _update_env_state.
  repeat (intros; first [apply frame_labelled_set; solve [auto] | frame_step]).
Qed.

Lemma frame_normalize_env_state {X} (f : Env H -> X) s :
  preserves f (_normalize_env_state s).
Proof. unfold _normalize_env_state. frame. Qed.

Lemma frame_update_with_action {X} (f : Env H -> X) a :
  indep f set_model -> preserves f (update_with_action mdl a).
Proof.
  intros. unfold update_with_action. apply preserves_for_each. intros [i v].
  unfold update_with_action_body.
  repeat (intros; first [ apply frame_get_param | apply frame_set_param; solve [auto]
                        | frame_step ]).
Qed.

Lemma frame_step_advance {X} (f : Env H -> X) :
  indep f set_jump_of -> indep f set_model -> indep f set_model_state -> indep f set_t ->
  preserves f (step_advance mdl).
Proof.
  intros. unfold step_advance.
  repeat (intros; first [ apply frame_set_param; solve [auto]
                        | apply frame_lift_model; solve [auto] | frame_step ]).
Qed.

Lemma frame_elementary_costs {X} (f : Env H -> X) a :
  preserves f (elementary_costs cf a).
Proof. unfold elementary_costs. frame. Qed.

Lemma frame_accumulate {X} (f : Env H -> X) cs :
  indep f set_cumulative_costs -> preserves f (accumulate cs).
Proof. intros. unfold accumulate. frame. Qed.

Lemma frame_history_load {X} (f : Env H -> X) : preserves f history_load.
Proof. unfold history_load. frame. Qed.

Lemma frame_history_store {X} (f : Env H -> X) h :
  indep f set_history -> preserves f (history_store h).
Proof. intros. unfold history_store. frame. Qed.

Ltac frame_history :=
  repeat (intros; first [ apply frame_history_load | apply frame_history_store; solve [auto]
                        | apply frame_normalize_env_state | frame_step ]).

Lemma frame_store_history {X} (f : Env H -> X) a :
  indep f set_history -> preserves f (store_history a).
Proof. intros. unfold store_history. frame_history. Qed.

Lemma frame_step_finish {X} (f : Env H -> X) a :
  indep f set_history -> indep f set_costs -> preserves f (step_finish cf a).
Proof. intros. unfold step_finish. frame_history. Qed.

(** The attributes [step] never writes. *)
Definition static {X} (f : Env H -> X) : Prop :=
  indep f set_model /\ indep f set_cumulative_costs /\ indep f set_history /\
  indep f set_model_state /\ indep f set_previous_env_state /\
  indep f set_previous_env_state_labelled /\ indep f set_env_state /\
  indep f set_env_state_labelled /\ indep f set_t /\ indep f set_jump_of /\
  indep f set_costs.

(** What follows [step_advance] in [step]. *)
Definition step_rest (a : action) : M (Env H) StepOut :=
  _update_previous_env_state ;;;
  _update_env_state mdl cf ;;;
  costs <- elementary_costs cf a ;;
  accumulate costs ;;;
  _update_env_state mdl cf ;;;
  store_history a ;;;
  step_finish cf a.

Lemma step_unfold a : step mdl cf a = (step_advance mdl ;;; step_rest a).
Proof. reflexivity. Qed.

Lemma frame_step_rest {X} (f : Env H -> X) a :
  indep f set_cumulative_costs -> indep f set_history ->
  indep f set_previous_env_state -> indep f set_previous_env_state_labelled ->
  indep f set_env_state -> indep f set_env_state_labelled -> indep f set_costs ->
  preserves f (step_rest a).
Proof.
  intros. unfold step_rest.
  repeat (intros;
    first [ apply frame_update_previous_env_state; solve [auto]
          | apply frame_update_env_state; solve [auto]
          | apply frame_elementary_costs
          | apply frame_accumulate; solve [auto]
          | apply frame_store_history; solve [auto]
          | apply frame_step_finish; solve [auto]
          | apply preserves_bind ]).
Qed.

Lemma frame_step {X} (f : Env H -> X) a : static f -> preserves f (step mdl cf a).
Proof.
  intros (?&?&?&?&?&?&?&?&?&?&?). rewrite step_unfold.
  apply preserves_bind; [by apply frame_step_advance|].
  intros _. by apply frame_step_rest.
Qed.

Lemma frame_warm_up {X} (f : Env H -> X) : static f -> preserves f (warm_up mdl cf).
Proof.
  intros Hf. unfold warm_up. apply preserves_bind; [apply preserves_get|].
  intros e. apply preserves_for_each. intros _.
  apply preserves_bind; [apply preserves_get|]. intros e'.
  apply preserves_bind; [by apply frame_step|]. intros _. apply preserves_ret.
Qed.

Lemma frame_reset_begin {X} (f : Env H -> X) :
  static f -> indep f set_reset_same -> preserves f (reset_begin mdl cf).
Proof.
  intros (?&?&?&?&?&?&?&?&?&?&?) ?. unfold reset_begin.
  repeat (intros;
    first [ apply frame_update_previous_env_state; solve [auto]
          | apply frame_update_env_state; solve [auto]
          | apply frame_lift_model; solve [auto]
          | apply frame_history_load | apply frame_history_store; solve [auto]
          | frame_step ]).
Qed.

Lemma frame_reset {X} (f : Env H -> X) :
  static f -> indep f set_reset_same -> preserves f (reset mdl cf).
Proof.
  intros Hf Hr. unfold reset.
  apply preserves_bind; [by apply frame_reset_begin|]. intros _.
  apply preserves_bind; [by apply frame_warm_up|]. intros _.
  apply preserves_bind; [apply preserves_get|]. intros e.
  apply preserves_bind; [apply preserves_from_option|]. intros s.
  apply frame_normalize_env_state.
Qed.

Lemma static_simulation_horizon : static (@simulation_horizon H).
Proof. by repeat split. Qed.
Lemma static_time_resolution : static (@time_resolution H).
Proof. by repeat split. Qed.
Lemma static_time_action_start : static (@time_action_start H).
Proof. by repeat split. Qed.
Lemma static_dim_action : static (@dim_action H).
Proof. by repeat split. Qed.
Lemma static_state_labels : static (@state_labels H).
Proof. by repeat split. Qed.
Lemma static_normalization_factors : static (@normalization_factors H).
Proof. by repeat split. Qed.
Lemma static_label_to_id : static (@label_to_id H).
Proof. by repeat split. Qed.

End Frames.

Create HintDb frame.
#[global] Hint Resolve static_simulation_horizon static_time_resolution
  static_time_action_start static_dim_action static_state_labels
  static_normalization_factors static_label_to_id : frame.

(** * What [step] does to the model *)

Section ModelEffect.

Context {H : Type} (mdl : BaseModel H) (cf : BaseCostFunction).
Implicit Types e : Env H.

Lemma bind_frame {S A B X} (f : S -> X) (c : M S A) (k : A -> M S B) s :
  (forall a, preserves f (k a)) -> f (bind c k s).2 = f (c s).2.
Proof.
  intros Hk. unfold bind. destruct (c s) as [[a|ex] s']; cbn; [apply Hk | done].
Qed.

(** After [step_advance] nothing in [step] writes the model object or the
    raw model state. *)
Lemma step_model a e : model (step mdl cf a e).2 = model (step_advance mdl e).2.
Proof. rewrite step_unfold. apply bind_frame. intros _. by apply frame_step_rest. Qed.

Lemma step_model_state a e :
  model_state (step mdl cf a e).2 = model_state (step_advance mdl e).2.
Proof. rewrite step_unfold. apply bind_frame. intros _. by apply frame_step_rest. Qed.

(** The model object with [NRUN] set to 0.25. *)
Definition with_NRUN (m : ModelObj H) : ModelObj H :=
  set_current_internal_params (<["NRUN" := (1 # 4)%Q]> (current_internal_params m)) m.

Lemma step_advance_model e t0 :
  t e = Some t0 ->
  model (step_advance mdl e).2 =
    (run_n_steps mdl (model_state e) 1
       (if decide (t0 = 70) then with_NRUN (model e) else model e)).2.
Proof.
  intros Ht. unfold step_advance, bind, get, from_option. rewrite Ht. cbn.
  destruct (decide (t0 = 70)) as [->|Hne]; cbn; unfold lift_model, with_NRUN; cbn;
    match goal with |- context [run_n_steps mdl ?s ?n ?m] =>
      destruct (run_n_steps mdl s n m) as [[sts|ex] m'] end; cbn;
    [destruct (last sts); done | done | destruct (last sts); done | done].
Qed.

Lemma step_advance_unset e : t e = None -> step_advance mdl e = (Raise AttributeError, e).
Proof. intros Ht. unfold step_advance, bind, get, from_option. by rewrite Ht. Qed.

End ModelEffect.

(** * The state update *)

Section StateUpdate.

Context {H : Type} (mdl : BaseModel H) (cf : BaseCostFunction).
Implicit Types e : Env H.

Lemma bind_assoc {S A B C} (c : M S A) (k : A -> M S B) (k' : B -> M S C) s :
  bind (bind c k) k' s = bind c (fun a => bind (k a) k') s.
Proof. unfold bind. by destruct (c s) as [[a|ex] s1]. Qed.

Lemma bind_ext {S A B} (c : M S A) (k k' : A -> M S B) s :
  (forall a s', k a s' = k' a s') -> bind c k s = bind c k' s.
Proof. intros Hk. unfold bind. destruct (c s) as [[a|ex] s1]; [apply Hk | done]. Qed.

(** Lines 79-85 build the dict, lines 86-93 check it and store the state. *)
Definition labelled_build : M (Env H) unit :=
  modify (set_env_state_labelled (Some ∅)) ;;;
  for_each (state_labels_for_agent mdl) (fun k =>
    i <- from_option ValueError (index k (internal_states_labels mdl)) ;;
    e <- get ;;
    s <- from_option TypeError (model_state e) ;;
    x <- from_option IndexError (s !! i) ;;
    labelled_set k x) ;;;
  for_each (seq 0 (nb_costs cf)) (fun id_cost =>
    e <- get ;;
    x <- from_option IndexError (cumulative_costs e !! id_cost) ;;
    labelled_set (cumulative_label id_cost) x).

Definition labelled_finish : M (Env H) unit :=
  e <- get ;;
  d <- from_option TypeError (env_state_labelled e) ;;
  (if decide (sorted (keys d) = sorted (state_labels e)) then ret tt
   else raise (AssertionError "labels do not match")) ;;;
  s <- map_m (fun k => from_option (KeyError k) (d !! k)) (state_labels e) ;;
  modify (set_env_state (Some s)) ;;;
  e <- get ;;
  match previous_env_state e with
  | None =>
      modify (set_previous_env_state (Some s)) ;;;
      modify (set_previous_env_state_labelled (Some d))
  | Some _ => ret tt
  end.

Lemma update_env_state_unfold e :
  _update_env_state mdl cf e = (labelled_build ;;; labelled_finish) e.
Proof.
  unfold _update_env_state, labelled_build.
  rewrite bind_assoc. apply bind_ext. intros _ e1. cbv beta.
  rewrite bind_assoc. apply bind_ext. intros _ e2. reflexivity.
Qed.

Lemma frame_labelled_build {X} (f : Env H -> X) :
  (forall x e, f (set_env_state_labelled x e) = f e) -> preserves f labelled_build.
Proof.
  intros Hf. unfold labelled_build.
  repeat (intros;
    first [ apply frame_labelled_set; solve [auto]
          | apply preserves_bind | apply preserves_for_each | apply preserves_get
          | apply preserves_from_option | apply preserves_modify; solve [auto] ]).
Qed.

(** [[d[k] for k in l]] *)
Lemma map_m_lookup_inv (d : gmap string Q) (l : list string) e r e' :
  map_m (fun k => from_option (KeyError k) (d !! k)) l e = (r, e') ->
  e' = e /\ forall s, r = Ok s -> Forall2 (fun k x => d !! k = Some x) l s.
Proof.
  revert r e'. induction l as [|k l IH]; cbn; intros r e' Hm.
  - injection Hm as <- <-. split; [done|]. intros s [= <-]. constructor.
  - unfold bind in Hm. destruct (d !! k) as [x|] eqn:Hk; cbn in Hm.
    + destruct (map_m _ l e) as [[s'|ex] e1] eqn:Hl; cbn in Hm;
        destruct (IH _ _ eq_refl) as [-> HF]; injection Hm as <- <-;
        (split; [done|]); intros s [= <-].
      constructor; auto.
    + injection Hm as <- <-. split; [done|]. intros s [=].
Qed.

Lemma map_m_lookup_ok (d : gmap string Q) (l : list string) e :
  (forall k, k ∈ l -> is_Some (d !! k)) ->
  exists s, map_m (fun k => from_option (KeyError k) (d !! k)) l e = (Ok s, e) /\
            length s = length l.
Proof.
  induction l as [|k l IH]; cbn; intros Hl.
  - by exists [].
  - destruct (Hl k) as [x Hx]; [by left|].
    destruct IH as (s & Hs & Hlen); [intros k' Hk'; apply Hl; by right|].
    exists (x :: s). unfold bind. rewrite Hx. cbn. rewrite Hs. cbn. by rewrite Hlen.
Qed.

(** The state [labelled_finish] leaves when it returns. *)
Definition stored (d : gmap string Q) (s : list Q) e : Env H :=
  match previous_env_state e with
  | None =>
      set_previous_env_state_labelled (Some d)
        (set_previous_env_state (Some s) (set_env_state (Some s) e))
  | Some _ => set_env_state (Some s) e
  end.

Lemma labelled_finish_inv e e' :
  labelled_finish e = (Ok tt, e') ->
  exists d s,
    env_state_labelled e = Some d /\
    sorted (keys d) = sorted (state_labels e) /\
    Forall2 (fun k x => d !! k = Some x) (state_labels e) s /\
    e' = stored d s e.
Proof.
  unfold labelled_finish, bind, get; cbn.
  destruct (env_state_labelled e) as [d|]; cbn; [|done].
  destruct (decide _) as [Hd|]; cbn; [|done].
  destruct (map_m _ _ e) as [[s|ex] e1] eqn:Hm; cbn; [|done].
  apply map_m_lookup_inv in Hm as [-> HF].
  intros Hfin. exists d, s. split; [done|]. split; [done|]. split; [by apply HF|].
  unfold stored. destruct (previous_env_state e); cbn in Hfin; by injection Hfin.
Qed.

Lemma labelled_finish_ok e d :
  env_state_labelled e = Some d ->
  sorted (keys d) = sorted (state_labels e) ->
  (forall k, k ∈ state_labels e -> is_Some (d !! k)) ->
  exists s, labelled_finish e = (Ok tt, stored d s e) /\
            length s = length (state_labels e).
Proof.
  intros Hd Hs Hk. destruct (map_m_lookup_ok d (state_labels e) e Hk) as (s & Hm & Hlen).
  exists s. split; [|done].
  unfold labelled_finish, bind, get; cbn. rewrite Hd; cbn.
  destruct (decide _); [|done]. cbn. rewrite Hm; cbn.
  unfold stored. by destruct (previous_env_state e).
Qed.

(** What [_update_env_state] leaves when it returns. *)
Lemma update_env_state_inv e e' :
  _update_env_state mdl cf e = (Ok tt, e') ->
  exists d s,
    env_state_labelled e' = Some d /\ env_state e' = Some s /\
    sorted (keys d) = sorted (state_labels e') /\
    Forall2 (fun k x => d !! k = Some x) (state_labels e') s /\
    (previous_env_state e = None ->
       previous_env_state e' = Some s /\ previous_env_state_labelled e' = Some d) /\
    (previous_env_state e <> None ->
       previous_env_state e' = previous_env_state e /\
       previous_env_state_labelled e' = previous_env_state_labelled e).
Proof.
  rewrite update_env_state_unfold. intros Hu.
  apply bind_inv in Hu as ([] & e1 & Hb & Hf).
  apply labelled_finish_inv in Hf as (d & s & Hd & Hs & HF & ->).
  assert (Hp : previous_env_state e1 = previous_env_state e)
    by (eapply preserves_Ok; [apply frame_labelled_build|exact Hb]; done).
  assert (Hpl : previous_env_state_labelled e1 = previous_env_state_labelled e)
    by (eapply preserves_Ok; [apply frame_labelled_build|exact Hb]; done).
  exists d, s. unfold stored. rewrite Hp.
  destruct (previous_env_state e) as [p|]; cbn; repeat split; done.
Qed.

End StateUpdate.

(** * The phases of [step] and [reset] *)

Section Phases.

Context {H : Type} (mdl : BaseModel H) (cf : BaseCostFunction).
Implicit Types e : Env H.

(** The label-set invariant: the assertion of line 86, as a property of an
    environment. *)
Definition labels_match e : Prop :=
  exists d, env_state_labelled e = Some d /\
            sorted (keys d) = sorted (state_labels e).

Lemma reads_elementary_costs a : reads (elementary_costs (H := H) cf a).
Proof. apply frame_elementary_costs. Qed.

(** A returning [step], phase by phase. *)
Lemma step_phases a e o e' :
  step mdl cf a e = (Ok o, e') ->
  exists e1 e2 e3 cs e4 e5 e6,
    step_advance mdl e = (Ok tt, e1) /\
    _update_previous_env_state e1 = (Ok tt, e2) /\
    _update_env_state mdl cf e2 = (Ok tt, e3) /\
    elementary_costs cf a e3 = (Ok cs, e3) /\
    accumulate cs e3 = (Ok tt, e4) /\
    _update_env_state mdl cf e4 = (Ok tt, e5) /\
    store_history a e5 = (Ok tt, e6) /\
    step_finish cf a e6 = (Ok o, e').
Proof.
  unfold step. intros Hs.
  apply bind_inv in Hs as ([] & e1 & H1 & Hs).
  apply bind_inv in Hs as ([] & e2 & H2 & Hs).
  apply bind_inv in Hs as ([] & e3 & H3 & Hs).
  apply bind_inv in Hs as (cs & e3' & H4 & Hs).
  assert (e3' = e3) as -> by (eapply reads_eq; [apply reads_elementary_costs|exact H4]).
  apply bind_inv in Hs as ([] & e4 & H5 & Hs).
  apply bind_inv in Hs as ([] & e5 & H6 & Hs).
  apply bind_inv in Hs as ([] & e6 & H7 & Hs).
  by exists e1, e2, e3, cs, e4, e5, e6.
Qed.


(** [reset], lines 116-132 and lines 137-139. *)
Definition reset_head : M (Env H) unit :=
  modify (set_history (Some empty_history)) ;;;
  modify (set_t (Some 0)) ;;;
  modify (set_cumulative_costs (replicate (nb_costs cf) 0%Q)) ;;;
  e <- get ;;
  (if reset_same e then
     lift_model (model_reset_same_model mdl) ;;; modify (set_reset_same false)
   else lift_model (model_reset mdl)) ;;;
  s <- lift_model (_get_current_state mdl) ;;
  modify (set_model_state (Some s)).

Definition reset_tail : M (Env H) unit :=
  h <- history_load ;;
  e <- get ;;
  es <- from_option AttributeError (env_state e) ;;
  history_store (add_env_states [es] h) ;;;
  h <- history_load ;;
  e <- get ;;
  ms <- from_option AttributeError (model_state e) ;;
  history_store (add_model_states [ms] h) ;;;
  h <- history_load ;;
  e <- get ;;
  t0 <- from_option AttributeError (t e) ;;
  history_store (add_env_timesteps [t0] h).

Lemma reset_begin_unfold e :
  reset_begin mdl cf e =
    (reset_head ;;; _update_previous_env_state ;;; _update_env_state mdl cf ;;;
     reset_tail) e.
Proof.
  unfold reset_begin, reset_head.
  rewrite bind_assoc. apply bind_ext. intros _ e1. cbv beta.
  rewrite bind_assoc. apply bind_ext. intros _ e2. cbv beta.
  rewrite bind_assoc. apply bind_ext. intros _ e3. cbv beta.
  rewrite bind_assoc. apply bind_ext. intros e4 e4'. cbv beta.
  rewrite bind_assoc. apply bind_ext. intros _ e5. cbv beta.
  rewrite bind_assoc. apply bind_ext. intros s e6. reflexivity.
Qed.

Lemma frame_reset_head {X} (f : Env H -> X) :
  (forall x e, f (set_history x e) = f e) -> (forall x e, f (set_t x e) = f e) ->
  (forall x e, f (set_cumulative_costs x e) = f e) ->
  (forall x e, f (set_model x e) = f e) -> (forall x e, f (set_reset_same x e) = f e) ->
  (forall x e, f (set_model_state x e) = f e) ->
  preserves f reset_head.
Proof.
  intros. unfold reset_head.
  repeat (intros;
    first [ apply frame_lift_model; solve [auto]
          | apply preserves_modify; solve [auto]
          | apply preserves_bind | apply preserves_get
          | match goal with |- preserves _ (if ?b then _ else _) => destruct b end ]).
Qed.

Lemma frame_reset_tail {X} (f : Env H -> X) :
  (forall x e, f (set_history x e) = f e) -> preserves f reset_tail.
Proof.
  intros. unfold reset_tail.
  repeat (intros;
    first [ apply frame_history_load | apply frame_history_store; solve [auto]
          | apply preserves_bind | apply preserves_get | apply preserves_from_option ]).
Qed.

Lemma reset_begin_phases e e' :
  reset_begin mdl cf e = (Ok tt, e') ->
  exists e1 e2 e3,
    reset_head e = (Ok tt, e1) /\
    _update_previous_env_state e1 = (Ok tt, e2) /\
    _update_env_state mdl cf e2 = (Ok tt, e3) /\
    reset_tail e3 = (Ok tt, e').
Proof.
  rewrite reset_begin_unfold. intros Hr.
  apply bind_inv in Hr as ([] & e1 & H1 & Hr).
  apply bind_inv in Hr as ([] & e2 & H2 & Hr).
  apply bind_inv in Hr as ([] & e3 & H3 & Hr).
  by exists e1, e2, e3.
Qed.

Lemma reset_phases e o e' :
  reset mdl cf e = (Ok o, e') ->
  exists e1, reset_begin mdl cf e = (Ok tt, e1) /\ warm_up mdl cf e1 = (Ok tt, e').
Proof.
  unfold reset. intros Hr.
  apply bind_inv in Hr as ([] & e1 & H1 & Hr).
  apply bind_inv in Hr as ([] & e2 & H2 & Hr).
  exists e1. split; [done|].
  assert (e' = e2) as ->; [|done].
  eapply (reads_eq _ e2 (Ok o)); [|exact Hr].
  unfold reads. apply preserves_bind; [apply preserves_get|]. intros e0.
  apply preserves_bind; [apply preserves_from_option|]. intros s.
  apply frame_normalize_env_state.
Qed.

Lemma warm_up_unfold e :
  warm_up mdl cf e =
    for_each (range 0 (time_action_start e))
      (fun _ => e0 <- get ;; step mdl cf (replicate (dim_action e0) 0) ;;; ret tt) e.
Proof. reflexivity. Qed.

(** An invariant that every returning [step] establishes holds after the
    warm-up if it holds before. *)
Lemma warm_up_partial (I : Env H -> Prop) :
  (forall a e o e', I e -> step mdl cf a e = (Ok o, e') -> I e') ->
  forall e e', I e -> warm_up mdl cf e = (Ok tt, e') -> I e'.
Proof.
  intros Hstep e e' He. rewrite warm_up_unfold.
  apply for_each_partial; [|done].
  intros x s s' _ Hs Hb. unfold bind, get in Hb; cbn in Hb.
  destruct (step mdl cf _ s) as [[o|ex] s1] eqn:Hst; cbn in Hb; [|done].
  injection Hb as <-. eauto.
Qed.

Lemma update_env_state_labels_match e e' :
  _update_env_state mdl cf e = (Ok tt, e') -> labels_match e'.
Proof.
  intros Hu. apply update_env_state_inv in Hu as (d & s & Hd & _ & Hs & _).
  by exists d.
Qed.

Lemma labels_match_frame {A} (c : M (Env H) A) e r e' :
  preserves env_state_labelled c -> preserves state_labels c ->
  c e = (r, e') -> labels_match e -> labels_match e'.
Proof.
  intros H1 H2 Hc (d & Hd & Hs). exists d.
  rewrite (preserves_Ok _ _ _ _ _ H1 Hc), (preserves_Ok _ _ _ _ _ H2 Hc). done.
Qed.

Lemma step_labels_match a e o e' : step mdl cf a e = (Ok o, e') -> labels_match e'.
Proof.
  intros Hs. apply step_phases in Hs as (e1&e2&e3&cs&e4&e5&e6&_&_&_&_&_&H6&H7&H8).
  apply update_env_state_labels_match in H6.
  eapply (labels_match_frame _ e6); [| |exact H8|].
  - by apply frame_step_finish.
  - by apply frame_step_finish.
  - eapply (labels_match_frame _ e5); [| |exact H7|exact H6]; by apply frame_store_history.
Qed.

Lemma reset_begin_labels_match e e' :
  reset_begin mdl cf e = (Ok tt, e') -> labels_match e'.
Proof.
  intros Hr. apply reset_begin_phases in Hr as (e1&e2&e3&_&_&H3&H4).
  apply update_env_state_labels_match in H3.
  eapply (labels_match_frame _ e3); [| |exact H4|exact H3]; by apply frame_reset_tail.
Qed.

End Phases.

(** * Action application *)

Section ActionApplication.

Context {H : Type} (mdl : BaseModel H) (cf : BaseCostFunction).
Implicit Types e : Env H.

(** The environment with the parameter dict of its model replaced. *)
Definition with_params (P : gmap string Q) e : Env H :=
  set_model (set_current_internal_params P (model e)) e.

(** The adjustment of lines 159-162. *)
Definition shifted (shift : Q) (a : Z) (p : Q) : Q :=
  if decide (a = 1) then (p + shift * p)%Q
  else if decide (a = -1) then (p - shift * p)%Q
  else p.

Lemma with_params_id e : with_params (current_internal_params (model e)) e = e.
Proof.
  unfold with_params, set_model, set_current_internal_params.
  destruct e; cbn. f_equal.
  match goal with m : ModelObj _ |- _ => by destruct m end.
Qed.

Lemma lookup_enumerate_from {A} (l : list A) n i x :
  l !! i = Some x -> enumerate_from n l !! i = Some ((n + i)%nat, x).
Proof.
  revert n i. induction l as [|y l IH]; intros n [|i] Hl; try done.
  - injection Hl as ->. cbn. by rewrite Nat.add_0_r.
  - change (enumerate_from (S n) l !! i = Some ((n + S i)%nat, x)).
    rewrite Nat.add_succ_r. by apply IH.
Qed.

Lemma take_enumerate_from {A} (l : list A) n i :
  take i (enumerate_from n l) = enumerate_from n (take i l).
Proof.
  revert n i. induction l as [|y l IH]; intros n [|i]; try done; cbn.
  by rewrite IH.
Qed.

Lemma update_body_ok a i v e x p r :
  a !! i = Some x -> x ∈ [-1; 0; 1] ->
  current_internal_params (model e) !! v = Some p ->
  control_variables_ranges mdl !! i = Some r ->
  update_with_action_body mdl a (i, v) e =
    (Ok tt, with_params
              (<[v := clip (shifted (percentage_shift e) x p) r.1 r.2]>
                 (current_internal_params (model e))) e).
Proof.
  intros Ha Hx Hp Hr.
  unfold update_with_action_body, bind, get, get_param, set_param, modify; cbn.
  rewrite Ha; cbn. destruct (decide (x ∈ [-1; 0; 1])); [|done]. cbn.
  unfold shifted, with_params.
  destruct (decide (x = 1)); [|destruct (decide (x = -1))]; cbn;
    repeat (progress (rewrite ?Hp, ?lookup_insert_eq, ?Hr; cbn));
    rewrite ?insert_insert_eq; done.
Qed.

Lemma update_body_raises a i v e x :
  a !! i = Some x -> x ∉ [-1; 0; 1] ->
  update_with_action_body mdl a (i, v) e = (Raise (AssertionError ""), e).
Proof.
  intros Ha Hx. unfold update_with_action_body, bind; cbn. rewrite Ha; cbn.
  by destruct (decide (x ∈ [-1; 0; 1])).
Qed.

(** However the body ends, it has touched at most the parameter [v]. *)
Lemma update_body_frame a i v e r e' :
  update_with_action_body mdl a (i, v) e = (r, e') ->
  exists P, e' = with_params P e /\
            forall w, w <> v -> P !! w = current_internal_params (model e) !! w.
Proof.
  pose proof (eq_sym (with_params_id e)) as Hid.
  unfold update_with_action_body, bind, get, get_param, set_param, modify; cbn.
  destruct (a !! i) as [x|]; cbn; [|intros [= <- <-]; eauto].
  destruct (decide (x ∈ [-1; 0; 1])); cbn; [|intros [= <- <-]; eauto].
  destruct (current_internal_params (model e) !! v) as [p|] eqn:Hp; cbn.
  - destruct (decide (x = 1)); [|destruct (decide (x = -1))]; cbn;
      repeat (progress (rewrite ?Hp, ?lookup_insert_eq; cbn));
      (destruct (control_variables_ranges mdl !! i) as [rg|]; cbn;
       intros [= <- <-];
       first [ by eauto
             | eexists; (split; [reflexivity|]);
               intros w Hw; cbn; rewrite ?lookup_insert_ne by done; done ]).
  - destruct (decide (x = 1)); [|destruct (decide (x = -1))]; cbn;
      rewrite ?Hp; cbn; intros [= <- <-]; eauto.
Qed.

Lemma update_loop_frame a l n e r e' :
  for_each (enumerate_from n l) (update_with_action_body mdl a) e = (r, e') ->
  exists P, e' = with_params P e /\
            forall w, w ∉ l -> P !! w = current_internal_params (model e) !! w.
Proof.
  revert n e. induction l as [|v l IH]; intros n e; cbn.
  - intros [= <- <-]. exists (current_internal_params (model e)).
    split; [by rewrite with_params_id|done].
  - intros Hl.
    change (bind (update_with_action_body mdl a (n, v))
              (fun _ => for_each (enumerate_from (S n) l) (update_with_action_body mdl a))
              e = (r, e')) in Hl.
    destruct (update_with_action_body mdl a (n, v) e) as [[[]|ex] e1] eqn:Hb.
    + rewrite (bind_Ok _ _ _ _ _ Hb) in Hl.
      apply update_body_frame in Hb as (P1 & -> & HP1).
      apply IH in Hl as (P & -> & HP). exists P. split; [done|]. intros w Hw.
      apply not_elem_of_cons in Hw as [Hwv Hwl].
      rewrite HP by done. cbn. by apply HP1.
    + rewrite (bind_Raise _ _ _ _ _ Hb) in Hl. injection Hl as <- <-.
      apply update_body_frame in Hb as (P1 & -> & HP1).
      exists P1. split; [done|]. intros w Hw.
      apply not_elem_of_cons in Hw as [Hwv Hwl]. by apply HP1.
Qed.




Lemma shifted_neutral s p : shifted s 0 p = p.
Proof. reflexivity. Qed.


End ActionApplication.

(** * Costs and history *)

Section CostsAndHistory.

Context {H : Type} (mdl : BaseModel H) (cf : BaseCostFunction).
Implicit Types e : Env H.

Lemma set_cumulative_costs_id e : set_cumulative_costs (cumulative_costs e) e = e.
Proof. by destruct e. Qed.

(** The body of the loop of lines 213-214. *)
Definition accumulate_body (costs : list Q) (i : nat) : M (Env H) unit :=
  e <- get ;;
  old <- from_option IndexError (cumulative_costs e !! i) ;;
  c <- from_option IndexError (costs !! i) ;;
  modify (set_cumulative_costs (<[i := (old + c)%Q]> (cumulative_costs e))).

Lemma accumulate_unfold costs :
  accumulate costs = for_each (seq 0 (length costs)) (accumulate_body costs).
Proof. reflexivity. Qed.

Lemma accumulate_body_inv costs i e e' :
  accumulate_body costs i e = (Ok tt, e') ->
  exists old c, cumulative_costs e !! i = Some old /\ costs !! i = Some c /\
    e' = set_cumulative_costs (<[i := (old + c)%Q]> (cumulative_costs e)) e.
Proof.
  unfold accumulate_body, bind, get; cbn.
  destruct (cumulative_costs e !! i) as [old|]; cbn; [|done].
  destruct (costs !! i) as [c|]; cbn; [|done].
  intros [= <-]. by exists old, c.
Qed.

Lemma accumulate_loop_inv costs k : forall n e e',
  for_each (seq n k) (accumulate_body costs) e = (Ok tt, e') ->
  exists cs',
    e' = set_cumulative_costs cs' e /\
    length cs' = length (cumulative_costs e) /\
    (forall i, (i < n \/ n + k <= i)%nat -> cs' !! i = cumulative_costs e !! i) /\
    (forall i, (n <= i < n + k)%nat ->
       exists old c, cumulative_costs e !! i = Some old /\ costs !! i = Some c /\
                     cs' !! i = Some (old + c)%Q).
Proof.
  induction k as [|k IH]; intros n e e'; cbn.
  - intros [= <-]. exists (cumulative_costs e).
    split; [by rewrite set_cumulative_costs_id|]. split; [done|].
    split; [done|]. intros i Hi. lia.
  - intros Hl. apply bind_inv in Hl as ([] & e1 & Hb & Hl).
    apply accumulate_body_inv in Hb as (old & c & Hold & Hc & ->).
    apply IH in Hl as (cs' & -> & Hlen & Hout & Hin). cbn in *.
    rewrite length_insert in Hlen.
    exists cs'. split; [done|]. split; [done|]. split.
    + intros i Hi. rewrite Hout by lia. apply list_lookup_insert_ne. lia.
    + intros i Hi. destruct (decide (i = n)) as [->|Hne].
      * exists old, c. split; [done|]. split; [done|].
        rewrite Hout by lia. apply list_lookup_insert_eq.
        by eapply lookup_lt_Some.
      * destruct (Hin i) as (old' & c' & Hold' & Hc' & Hcs); [lia|].
        rewrite list_lookup_insert_ne in Hold' by done.
        by exists old', c'.
Qed.






(** ** What the phases of [step] do to the clock and the history *)

Lemma step_advance_inv e e' :
  step_advance mdl e = (Ok tt, e') ->
  exists t0,
    t e = Some t0 /\
    let j := Z.min (time_resolution e) (simulation_horizon e - t0) in
    t e' = Some (t0 + j) /\ jump_of e' = Some j /\ model_state e' <> None.
Proof.
  unfold step_advance, bind, get; cbn.
  destruct (t e) as [t0|]; cbn; [|done].
  intros Hs. exists t0. split; [done|]. revert Hs.
  destruct (decide (t0 = 70)); cbn; unfold lift_model; cbn;
    match goal with |- context [run_n_steps mdl ?s ?n ?m] =>
      destruct (run_n_steps mdl s n m) as [[sts|ex] m'] end; cbn; try done;
    destruct (last sts); cbn; try done; intros [= <-]; done.
Qed.

Lemma store_history_inv a e e' :
  store_history a e = (Ok tt, e') ->
  exists h j s t1 ms,
    history e = Some h /\ jump_of e = Some j /\ env_state e = Some s /\
    t e = Some t1 /\ model_state e = Some ms /\
    history e' =
      Some (add_model_states [ms]
             (add_env_timesteps (range (t1 - j) t1)
               (add_env_states (times s j) (add_actions (times a j) h)))).
Proof.
  unfold store_history, history_load, history_store, bind, get; cbn.
  destruct (history e) as [h|]; cbn; [|done].
  destruct (jump_of e) as [j|]; cbn; [|done].
  destruct (env_state e) as [s|]; cbn; [|done].
  destruct (t e) as [t1|]; cbn; [|done].
  destruct (model_state e) as [ms|]; cbn; [|done].
  intros [= <-]. by exists h, j, s, t1, ms.
Qed.

Lemma step_finish_inv a e o e' :
  step_finish cf a e = (Ok o, e') ->
  exists h j t1 agg cs,
    history e = Some h /\ jump_of e = Some j /\ t e = Some t1 /\
    history e' =
      Some (add_costs (times (map (fun c => c / inject_Z j)%Q cs) j)
             (add_aggregated_costs (times (agg / inject_Z j)%Q j) h)) /\
    out_done o = bool_decide (simulation_horizon e <= t1).
Proof.
  unfold step_finish, history_load, history_store, bind, get, lift_res; cbn.
  destruct (previous_env_state e) as [p|]; cbn; [|done].
  destruct (env_state e) as [s|]; cbn; [|done].
  destruct (jump_of e) as [j|]; cbn; [|done].
  destruct (compute_cost cf p s _ a j) as [[[agg cs] over]|ex]; cbn; [|done].
  destruct (history e) as [h|]; cbn; [|done].
  destruct (t e) as [t1|]; cbn; [|done].
  unfold _normalize_env_state, bind, get; cbn.
  destruct (decide _); cbn; [|done].
  intros [= <- <-]. by exists h, j, t1, agg, cs.
Qed.

(** A returning [step], on the clock and on the three aligned histories. *)
Lemma step_history a e o e' :
  step mdl cf a e = (Ok o, e') ->
  exists t0 h h',
    t e = Some t0 /\ history e = Some h /\
    let j := Z.min (time_resolution e) (simulation_horizon e - t0) in
    t e' = Some (t0 + j) /\ history e' = Some h' /\
    h_actions h' = h_actions h ++ times a j /\
    h_env_timesteps h' = h_env_timesteps h ++ range t0 (t0 + j) /\
    length (h_env_states h') = (length (h_env_states h) + Z.to_nat j)%nat /\
    length (h_model_states h') = S (length (h_model_states h)) /\
    out_done o = bool_decide (simulation_horizon e <= t0 + j).
Proof.
  intros Hs. apply step_phases in Hs as (e1&e2&e3&cs&e4&e5&e6&H1&H2&H3&H4&H5&H6&H7&H8).
  pose proof (step_advance_inv _ _ H1) as (t0 & Ht0 & Ht1 & Hj1 & _).
  cbv zeta in *. set (j := Z.min _ _) in *.
  assert (Hpre : forall X (f : Env H -> X),
            (forall x e0, f (set_previous_env_state x e0) = f e0) ->
            (forall x e0, f (set_previous_env_state_labelled x e0) = f e0) ->
            (forall x e0, f (set_env_state x e0) = f e0) ->
            (forall x e0, f (set_env_state_labelled x e0) = f e0) ->
            (forall x e0, f (set_cumulative_costs x e0) = f e0) ->
            f e5 = f e1).
  { intros X f ? ? ? ? ?.
    rewrite (preserves_Ok f _ _ _ _ (frame_update_env_state mdl cf f
               ltac:(done) ltac:(done) ltac:(done) ltac:(done)) H6).
    rewrite (preserves_Ok f _ _ _ _ (frame_accumulate f cs ltac:(done)) H5).
    rewrite (preserves_Ok f _ _ _ _ (frame_update_env_state mdl cf f
               ltac:(done) ltac:(done) ltac:(done) ltac:(done)) H3).
    by rewrite (preserves_Ok f _ _ _ _ (frame_update_previous_env_state f
               ltac:(done) ltac:(done)) H2). }
  assert (Hh1 : history e1 = history e).
  { eapply preserves_Ok; [|exact H1]. by apply frame_step_advance. }
  assert (Hz1 : simulation_horizon e1 = simulation_horizon e).
  { eapply preserves_Ok; [|exact H1]. by apply frame_step_advance. }
  apply store_history_inv in H7 as Hst.
  destruct Hst as (h & j' & s & t1 & ms & Hh5 & Hj5 & _ & Ht5 & _ & Hh6).
  rewrite (Hpre _ history) in Hh5 by done. rewrite Hh1 in Hh5.
  rewrite (Hpre _ jump_of) in Hj5 by done. rewrite Hj1 in Hj5. injection Hj5 as <-.
  rewrite (Hpre _ t) in Ht5 by done. rewrite Ht1 in Ht5. injection Ht5 as <-.
  assert (Ht6 : t e6 = Some (t0 + j)).
  { rewrite <- Ht1, <- (Hpre _ t) by done.
    eapply preserves_Ok; [|exact H7]. by apply frame_store_history. }
  assert (Hz6 : simulation_horizon e6 = simulation_horizon e).
  { rewrite <- Hz1, <- (Hpre _ simulation_horizon) by done.
    eapply preserves_Ok; [|exact H7]. by apply frame_store_history. }
  apply step_finish_inv in H8 as Hfin.
  destruct Hfin as (h6 & j6 & t6 & agg & csv & Hh6' & _ & Ht6' & Hh' & Hdone).
  rewrite Hh6 in Hh6'. injection Hh6' as <-.
  rewrite Ht6 in Ht6'. injection Ht6' as <-.
  assert (Ht' : t e' = Some (t0 + j)).
  { rewrite <- Ht6. eapply preserves_Ok; [|exact H8]. by apply frame_step_finish. }
  eexists t0, h, _. split; [done|]. split; [done|]. split; [done|].
  split; [exact Hh'|]. cbn. split; [done|].
  split; [by replace (t0 + j - j) with t0 by lia|].
  split; [unfold times; by rewrite length_app, length_replicate|].
  split; [rewrite length_app; cbn; lia|]. by rewrite Hdone, Hz6.
Qed.

End CostsAndHistory.

(** * Episodes *)

Section Episodes.

Context {H : Type} (mdl : BaseModel H) (cf : BaseCostFunction).
Implicit Types e : Env H.

Lemma bind_modify {S B} (g : S -> S) (k : unit -> M S B) s :
  bind (modify g) k s = k tt (g s).
Proof. reflexivity. Qed.

(** [reset] lines 126-132: after the three assignments of lines 116-124. *)
Definition reset_model : M (Env H) unit :=
  e <- get ;;
  (if reset_same e then
     lift_model (model_reset_same_model mdl) ;;; modify (set_reset_same false)
   else lift_model (model_reset mdl)) ;;;
  s <- lift_model (_get_current_state mdl) ;;
  modify (set_model_state (Some s)).

Lemma reset_head_unfold e :
  reset_head mdl cf e =
    reset_model
      (set_cumulative_costs (replicate (nb_costs cf) 0%Q)
         (set_t (Some 0) (set_history (Some empty_history) e))).
Proof. reflexivity. Qed.

Lemma frame_reset_model {X} (f : Env H -> X) :
  (forall x e, f (set_model x e) = f e) -> (forall x e, f (set_reset_same x e) = f e) ->
  (forall x e, f (set_model_state x e) = f e) ->
  preserves f reset_model.
Proof.
  intros. unfold reset_model.
  repeat (intros;
    first [ apply frame_lift_model; solve [auto]
          | apply preserves_modify; solve [auto]
          | apply preserves_bind | apply preserves_get
          | match goal with |- preserves _ (if ?b then _ else _) => destruct b end ]).
Qed.

Lemma reset_head_inv e r e' :
  reset_head mdl cf e = (r, e') ->
  history e' = Some empty_history /\ t e' = Some 0 /\
  cumulative_costs e' = replicate (nb_costs cf) 0%Q.
Proof.
  rewrite reset_head_unfold. intros Hr.
  rewrite (preserves_Ok history _ _ _ _ (frame_reset_model history
             ltac:(done) ltac:(done) ltac:(done)) Hr).
  rewrite (preserves_Ok t _ _ _ _ (frame_reset_model t
             ltac:(done) ltac:(done) ltac:(done)) Hr).
  rewrite (preserves_Ok cumulative_costs _ _ _ _ (frame_reset_model cumulative_costs
             ltac:(done) ltac:(done) ltac:(done)) Hr).
  done.
Qed.

Lemma reset_tail_inv e e' :
  reset_tail e = (Ok tt, e') ->
  exists h es ms t0,
    history e = Some h /\ env_state e = Some es /\ model_state e = Some ms /\
    t e = Some t0 /\
    history e' =
      Some (add_env_timesteps [t0] (add_model_states [ms] (add_env_states [es] h))).
Proof.
  unfold reset_tail, history_load, history_store, bind, get; cbn.
  destruct (history e) as [h|]; cbn; [|done].
  destruct (env_state e) as [es|]; cbn; [|done].
  destruct (model_state e) as [ms|]; cbn; [|done].
  destruct (t e) as [t0|]; cbn; [|done].
  intros [= <-]. by exists h, es, ms, t0.
Qed.


(** ** The shape of the history *)

(** The clock [t0] against the number [n] of recorded actions. *)
Definition clock_ok e (t0 : Z) (n : nat) : Prop :=
  (t0 <= 0 /\ n = 0%nat /\
   (t0 < 0 -> time_resolution e < 0 \/ simulation_horizon e <= t0)) \/
  (0 < t0 <= simulation_horizon e /\ Z.of_nat n = t0 /\ 0 < time_resolution e).

Definition history_shape e : Prop :=
  exists h t0,
    history e = Some h /\ t e = Some t0 /\
    h_env_timesteps h = 0 :: seqZ 0 (Z.of_nat (length (h_actions h))) /\
    length (h_env_states h) = S (length (h_actions h)) /\
    clock_ok e t0 (length (h_actions h)).

Lemma reset_begin_history_shape e e' :
  reset_begin mdl cf e = (Ok tt, e') -> history_shape e'.
Proof.
  intros Hr. apply reset_begin_phases in Hr as (e1&e2&e3&H1&H2&H3&H4).
  apply reset_head_inv in H1 as (Hh1 & Ht1 & _).
  assert (Hpre : forall X (f : Env H -> X),
            (forall x e0, f (set_previous_env_state x e0) = f e0) ->
            (forall x e0, f (set_previous_env_state_labelled x e0) = f e0) ->
            (forall x e0, f (set_env_state x e0) = f e0) ->
            (forall x e0, f (set_env_state_labelled x e0) = f e0) ->
            f e3 = f e1).
  { intros X f ? ? ? ?.
    rewrite (preserves_Ok f _ _ _ _ (frame_update_env_state mdl cf f
               ltac:(done) ltac:(done) ltac:(done) ltac:(done)) H3).
    by rewrite (preserves_Ok f _ _ _ _ (frame_update_previous_env_state f
               ltac:(done) ltac:(done)) H2). }
  apply reset_tail_inv in H4 as Htail.
  destruct Htail as (h & es & ms & t0 & Hh3 & _ & _ & Ht3 & Hh').
  rewrite (Hpre _ history), Hh1 in Hh3 by done. injection Hh3 as <-.
  rewrite (Hpre _ t), Ht1 in Ht3 by done. injection Ht3 as <-.
  assert (Ht' : t e' = Some 0).
  { rewrite <- Ht1, <- (Hpre _ t) by done.
    eapply preserves_Ok; [|exact H4]. by apply frame_reset_tail. }
  eexists _, 0. split; [exact Hh'|]. split; [exact Ht'|]. cbn.
  split; [done|]. split; [done|]. left. split; [lia|]. split; [done|]. lia.
Qed.

Lemma step_history_shape a e o e' :
  history_shape e -> step mdl cf a e = (Ok o, e') -> history_shape e'.
Proof.
  intros (h & t0 & Hh & Ht & Hts & Hes & Hclock) Hs.
  pose proof (preserves_Ok simulation_horizon _ _ _ _
                (frame_step mdl cf _ a static_simulation_horizon) Hs) as Hz.
  pose proof (preserves_Ok time_resolution _ _ _ _
                (frame_step mdl cf _ a static_time_resolution) Hs) as Hres.
  apply step_history in Hs as (t0' & h0 & h' & Ht0 & Hh0 & Hstep).
  rewrite Ht in Ht0. injection Ht0 as <-. rewrite Hh in Hh0. injection Hh0 as <-.
  cbv zeta in Hstep. set (j := Z.min _ _) in *.
  destruct Hstep as (Ht' & Hh' & Hacts & Htimes & Hstates & _ & _).
  exists h', (t0 + j). split; [done|]. split; [done|].
  assert (Hlen : length (h_actions h') = (length (h_actions h) + Z.to_nat j)%nat).
  { rewrite Hacts, length_app. unfold times. by rewrite length_replicate. }
  unfold clock_ok in *. rewrite Hz, Hres.
  split; [|split; [lia|]].
  - rewrite Htimes, Hts, Hlen. unfold range. cbn. f_equal.
    replace (t0 + j - t0) with j by lia.
    destruct (decide (j <= 0)) as [Hj|Hj].
    + rewrite (seqZ_nil t0 j) by done. rewrite app_nil_r. f_equal. lia.
    + replace t0 with (0 + Z.of_nat (length (h_actions h))) at 1 by lia.
      rewrite <- seqZ_app by lia. f_equal. lia.
  - lia.
Qed.

Lemma play_partial (I : Env H -> Prop) :
  (forall a e o e', I e -> step mdl cf a e = (Ok o, e') -> I e') ->
  forall acts e outs e', I e -> play mdl cf acts e = (Ok outs, e') -> I e'.
Proof.
  intros Hstep. unfold play. induction acts as [|a acts IH]; cbn; intros e outs e' He Hp.
  - by injection Hp as <- <-.
  - apply bind_inv in Hp as (o & e1 & H1 & Hp).
    apply bind_inv in Hp as (os & e2 & H2 & Hp). injection Hp as <- <-.
    eapply IH; [|exact H2]. eauto.
Qed.

End Episodes.

(** * The model inside [step] (C6, C7) *)

Section ModelClaims.

Context {H : Type} (mdl : BaseModel H) (cf : BaseCostFunction).
Implicit Types e : Env H.

(** C7: whatever the two action vectors are (valid or not), [step] from the
    same environment leaves the same model object (its parameters and its
    internals) and the same raw model state: the action reaches neither. *)
Theorem step_model_independent_of_action (a1 a2 : action) e :
  model (step mdl cf a1 e).2 = model (step mdl cf a2 e).2 /\
  model_state (step mdl cf a1 e).2 = model_state (step mdl cf a2 e).2.
Proof. by rewrite !step_model, !step_model_state. Qed.

(** C6, amended: the model object that [step] leaves is the one that
    [run_n_steps] leaves, run on the model object as it was, except that at
    [t = 70] the environment itself first sets the parameter [NRUN] to 0.25;
    when [t] is unset, [step] leaves the model object alone. *)
Theorem step_model_is_run_after_NRUN (a : action) e :
  (forall t0, t e = Some t0 ->
     model (step mdl cf a e).2 =
       (run_n_steps mdl (model_state e) 1
          (if decide (t0 = 70) then with_NRUN (model e) else model e)).2) /\
  (t e = None -> model (step mdl cf a e).2 = model e).
Proof.
  split.
  - intros t0 Ht. rewrite step_model. by apply step_advance_model.
  - intros Ht. rewrite step_model. by rewrite step_advance_unset.
Qed.

End ModelClaims.

Lemma step_model_is_run_after_NRUN_witness :
  t toy_at_70 = Some 70 /\
  model (step Toy.world Toy.cost Toy.neutral toy_at_70).2 =
    (run_n_steps Toy.world (model_state toy_at_70) 1 (with_NRUN (model toy_at_70))).2.
Proof.
  split; [by vm_compute|].
  apply (proj1 (step_model_is_run_after_NRUN Toy.world Toy.cost
                  Toy.neutral toy_at_70) 70).
  by vm_compute.
Defined.

(** C6 as stated fails at [t = 70]: [step] leaves [NRUN = 0.25] in a model
    whose [run_n_steps], run on the model object as it was, leaves
    [NRUN = 1]; the write is the environment's own. *)
Lemma step_writes_NRUN_itself :
  let after_step := model (step Toy.world Toy.cost Toy.neutral toy_at_70).2 in
  let after_run :=
    (run_n_steps Toy.world (model_state toy_at_70) 1 (model toy_at_70)).2 in
  current_internal_params after_step !! "NRUN" = Some (1 # 4)%Q /\
  current_internal_params after_run !! "NRUN" = Some 1%Q /\
  after_step <> after_run.
Proof.
  cbv zeta. split; [by vm_compute|]. split; [by vm_compute|].
  intros Heq. apply (f_equal (fun m => current_internal_params m !! "NRUN")) in Heq.
  vm_compute in Heq. discriminate.
Qed.

(** * Construction (C10) *)

Section Construction.

Context {H : Type} (mdl : BaseModel H) (cf : BaseCostFunction).

(** C10, amended: whatever the model, a constructed environment has
    [dim_action = 5], and [sample_action] returns vectors of length 5. *)
Theorem dim_action_is_five (m : ModelObj H) (horizon start : Z) (shift : Q)
    (resolution : Z) (e : Env H) :
  init mdl cf m horizon start shift resolution = Ok e ->
  dim_action e = 5%nat /\
  forall rng, exists a, sample_action rng e = (Ok a, e) /\ length a = 5%nat.
Proof.
  unfold init. destruct (decide (resolution = 0)); [done|].
  intros [= <-]. split; [done|]. intros rng. eexists. split; [reflexivity|].
  by rewrite length_map, length_seq.
Qed.

End Construction.

Lemma dim_action_is_five_witness :
  init Toy.world Toy.cost Toy.obj0 3 1 (1 # 20) 1 = Ok (Toy.make 3 1) /\
  dim_action (Toy.make 3 1) = 5%nat.
Proof.
  split; [by vm_compute|].
  apply (dim_action_is_five Toy.world Toy.cost Toy.obj0 3 1 (1 # 20) 1).
  by vm_compute.
Defined.

(** C10 as stated fails for a model with two control variables. *)
Lemma dim_action_not_control_count :
  length (control_variables Toy.world) = 2%nat /\
  dim_action (Toy.make 3 1) <> length (control_variables Toy.world) /\
  forall rng,
    length (Toy.value [] (sample_action rng) (Toy.make 3 1))
      <> length (control_variables Toy.world).
Proof.
  split; [done|]. split; [by vm_compute|].
  intros rng. cbn. discriminate.
Qed.

(** * The labelled state (C3, C9) *)

Section LabelledState.

Context {H : Type} (mdl : BaseModel H) (cf : BaseCostFunction).
Implicit Types e : Env H.

(** C3: whenever [step] or [reset] returns, the sorted keys of the labelled
    state are the sorted [state_labels]; a state update that ends with other
    keys has raised, and the check of line 86 raises the assertion error
    ["labels do not match"] on any dict with other keys. *)
Theorem label_set_invariant :
  (forall a e o e', step mdl cf a e = (Ok o, e') -> labels_match e') /\
  (forall e o e', reset mdl cf e = (Ok o, e') -> labels_match e') /\
  (forall e r e', _update_env_state mdl cf e = (r, e') ->
     ~ labels_match e' -> exists ex, r = Raise ex) /\
  (forall e d, env_state_labelled e = Some d ->
     sorted (keys d) <> sorted (state_labels e) ->
     labelled_finish e = (Raise (AssertionError "labels do not match"), e)).
Proof.
  split; [|split; [|split]].
  - intros a e o e'. apply step_labels_match.
  - intros e o e' Hr. apply reset_phases in Hr as (e1 & Hb & Hw).
    apply reset_begin_labels_match in Hb.
    eapply (warm_up_partial mdl cf labels_match); [|exact Hb|exact Hw].
    intros a e0 o0 e0' _. apply step_labels_match.
  - intros e [[]|ex] e' Hu Hn; [|by eauto].
    destruct Hn. by apply (update_env_state_labels_match mdl cf e).
  - intros e d Hd Hne. unfold labelled_finish, bind, get; cbn. rewrite Hd; cbn.
    by destruct (decide _).
Qed.

(** On the first episode of an environment (no state recorded yet), the
    first state update of [reset] leaves previous = current. *)
Lemma first_reset_previous_is_current e e' :
  env_state e = None -> previous_env_state e = None ->
  reset_begin mdl cf e = (Ok tt, e') ->
  env_state e' <> None /\
  previous_env_state e' = env_state e' /\
  previous_env_state_labelled e' = env_state_labelled e'.
Proof.
  intros He Hp Hr. apply reset_begin_phases in Hr as (e1&e2&e3&H1&H2&H3&H4).
  assert (He1 : env_state e1 = None).
  { rewrite <- He. eapply preserves_Ok; [|exact H1]. by apply frame_reset_head. }
  assert (Hp1 : previous_env_state e1 = None).
  { rewrite <- Hp. eapply preserves_Ok; [|exact H1]. by apply frame_reset_head. }
  unfold _update_previous_env_state, bind, get in H2; cbn in H2.
  rewrite He1 in H2. injection H2 as <-.
  apply update_env_state_inv in H3 as (d & s & Hd & Hs & _ & _ & Hnone & _).
  destruct (Hnone Hp1) as [Hps Hpd].
  assert (Hf : forall X (f : Env H -> X),
             (forall x e0, f (set_history x e0) = f e0) -> f e' = f e3).
  { intros X f Hf. eapply preserves_Ok; [by apply frame_reset_tail|exact H4]. }
  rewrite (Hf _ env_state), (Hf _ previous_env_state),
    (Hf _ previous_env_state_labelled), (Hf _ env_state_labelled) by done.
  rewrite Hs, Hps, Hpd, Hd. done.
Qed.

End LabelledState.

Lemma label_set_invariant_witness :
  step Toy.world Toy.cost Toy.neutral toy_at_70 =
    (Ok (Toy.value toy_out (step Toy.world Toy.cost Toy.neutral) toy_at_70),
     Toy.exec (step Toy.world Toy.cost Toy.neutral) toy_at_70) /\
  labels_match (Toy.exec (step Toy.world Toy.cost Toy.neutral) toy_at_70).
Proof.
  assert (Hs : step Toy.world Toy.cost Toy.neutral toy_at_70 =
    (Ok (Toy.value toy_out (step Toy.world Toy.cost Toy.neutral) toy_at_70),
     Toy.exec (step Toy.world Toy.cost Toy.neutral) toy_at_70)) by (by vm_compute).
  split; [exact Hs|].
  exact (proj1 (label_set_invariant Toy.world Toy.cost) _ _ _ _ Hs).
Defined.

(** C9 fails on a second episode: after an episode of three steps, the
    first state update of the next [reset] leaves the last state of the
    finished episode as the previous state, and the initial state of the
    new episode as the current one. *)
Theorem second_reset_previous_is_stale :
  previous_env_state toy_second_episode = Some [4%Q; 4%Q; 3%Q; 3%Q] /\
  env_state toy_second_episode = Some [1%Q; 1%Q; 0%Q; 0%Q] /\
  previous_env_state toy_second_episode <> env_state toy_second_episode /\
  (previous_env_state_labelled toy_second_episode ≫= (.!! "P")) = Some 4%Q /\
  (env_state_labelled toy_second_episode ≫= (.!! "P")) = Some 1%Q /\
  previous_env_state_labelled toy_second_episode <> env_state_labelled toy_second_episode.
Proof.
  split; [by vm_compute|]. split; [by vm_compute|]. split; [by vm_compute|].
  split; [by vm_compute|]. split; [by vm_compute|].
  intros Heq. apply (f_equal (fun o => o ≫= (.!! "P"))) in Heq.
  vm_compute in Heq. discriminate.
Qed.

(** * Action application (C8) *)

Section ActionClaims.

Context {H : Type} (mdl : BaseModel H).
Implicit Types e : Env H.


End ActionClaims.


(** * Cumulative costs and history (C5, C4) *)

Section AccountingClaims.

Context {H : Type} (mdl : BaseModel H) (cf : BaseCostFunction).
Implicit Types e : Env H.


(** C4, amended: after a returning [reset] followed by any number of
    returning steps (a completed episode included), the histories of states
    and timestamps have one entry more than the history of actions, and the
    timestamps are 0 followed by 0, 1, ..., [len(actions) - 1]. *)
Theorem history_lengths_and_timesteps e o e1 (acts : list action) outs e2 :
  reset mdl cf e = (Ok o, e1) ->
  play mdl cf acts e1 = (Ok outs, e2) ->
  exists h,
    history e2 = Some h /\
    length (h_env_states h) = length (h_env_timesteps h) /\
    length (h_env_timesteps h) = S (length (h_actions h)) /\
    h_env_timesteps h = 0 :: seqZ 0 (Z.of_nat (length (h_actions h))).
Proof.
  intros Hr Hp. apply reset_phases in Hr as (e0 & Hb & Hw).
  apply reset_begin_history_shape in Hb.
  assert (Hshape : history_shape e2).
  { eapply (play_partial mdl cf history_shape); [|  |exact Hp].
    - intros a s o' s' Hs. by apply step_history_shape.
    - eapply (warm_up_partial mdl cf history_shape); [|exact Hb|exact Hw].
      intros a s o' s' Hs. by apply step_history_shape. }
  destruct Hshape as (h & t0 & Hh & _ & Hts & Hes & _).
  exists h. split; [done|].
  assert (Hlen : length (h_env_timesteps h) = S (length (h_actions h))).
  { rewrite Hts. cbn. rewrite length_seqZ. lia. }
  split; [by rewrite Hes, Hlen|]. done.
Qed.

End AccountingClaims.


Lemma history_lengths_and_timesteps_witness :
  exists h,
    history toy_first_episode = Some h /\
    length (h_env_states h) = length (h_env_timesteps h) /\
    length (h_env_timesteps h) = S (length (h_actions h)) /\
    h_env_timesteps h = 0 :: seqZ 0 (Z.of_nat (length (h_actions h))).
Proof.
  apply (history_lengths_and_timesteps Toy.world Toy.cost (Toy.make 3 0)
           (Toy.value [] (reset Toy.world Toy.cost) (Toy.make 3 0))
           (Toy.exec (reset Toy.world Toy.cost) (Toy.make 3 0))
           [Toy.neutral; Toy.neutral; Toy.neutral]
           (Toy.value [] (play Toy.world Toy.cost [Toy.neutral; Toy.neutral; Toy.neutral])
              (Toy.exec (reset Toy.world Toy.cost) (Toy.make 3 0)))).
  - by vm_compute.
  - by vm_compute.
Defined.

(** C4 as stated fails on a completed episode of three steps (the third
    returns [done]): four states and four timestamps are recorded for three
    actions, and the timestamps start with 0 twice. *)
Lemma history_of_completed_episode :
  let episode := play Toy.world Toy.cost [Toy.neutral; Toy.neutral; Toy.neutral]
                   (Toy.exec (reset Toy.world Toy.cost) (Toy.make 3 0)) in
  (match episode.1 with Ok outs => out_done <$> outs | Raise _ => [] end)
    = [false; false; true] /\
  exists h,
    history episode.2 = Some h /\
    h_env_timesteps h = [0; 0; 1; 2] /\
    length (h_env_states h) = 4%nat /\
    length (h_actions h) = 3%nat /\
    ~ (length (h_env_states h) = length (h_env_timesteps h) /\
       length (h_env_timesteps h) = length (h_actions h)) /\
    ~ (forall i j x y, (i < j)%nat ->
         h_env_timesteps h !! i = Some x -> h_env_timesteps h !! j = Some y -> x < y).
Proof.
  cbv zeta. split; [by vm_compute|].
  eexists. split; [by vm_compute|]. cbn.
  split; [done|]. split; [done|]. split; [done|]. split.
  - intros [_ Hlen]. discriminate.
  - intros Hinc. specialize (Hinc 0%nat 1%nat 0 0). cbn in Hinc.
    assert (0 < 0) by (apply Hinc; [lia|done|done]). lia.
Qed.

(** * More on action application *)

Section ActionApplicationMore.

Context {H : Type} (mdl : BaseModel H).
Implicit Types e : Env H.

Lemma clip_id p lo hi : (lo <= p)%Q -> (p <= hi)%Q -> clip p lo hi = p.
Proof.
  intros Hlo Hhi. unfold clip, Qmin, Qmax, GenericMinMax.gmin, GenericMinMax.gmax.
  pose proof (proj1 (Qle_alt _ _) Hlo) as Hlo'.
  pose proof (proj1 (Qle_alt _ _) Hhi) as Hhi'.
  rewrite <- (Qcompare_antisym lo p).
  destruct (lo ?= p)%Q; cbn; try congruence;
    destruct (p ?= hi)%Q; congruence.
Qed.

Lemma update_loop_neutral a l : forall n e,
  (forall j v, l !! j = Some v ->
     exists p lo hi,
       a !! (n + j)%nat = Some 0 /\
       current_internal_params (model e) !! v = Some p /\
       control_variables_ranges mdl !! (n + j)%nat = Some (lo, hi) /\
       (lo <= p)%Q /\ (p <= hi)%Q) ->
  for_each (enumerate_from n l) (update_with_action_body mdl a) e = (Ok tt, e).
Proof.
  induction l as [|v l IH]; intros n e Hall; [done|].
  destruct (Hall 0%nat v eq_refl) as (p & lo & hi & Ha & Hp & Hr & Hlo & Hhi).
  rewrite Nat.add_0_r in Ha, Hr.
  assert (Hb : update_with_action_body mdl a (n, v) e = (Ok tt, e)).
  { rewrite (update_body_ok mdl a n v e 0 p (lo, hi) Ha ltac:(set_solver) Hp Hr).
    cbn. rewrite shifted_neutral, (clip_id p lo hi Hlo Hhi).
    by rewrite (insert_id _ _ _ Hp), with_params_id. }
  cbn. rewrite (bind_Ok _ _ _ _ _ Hb). apply IH.
  intros j w Hw. destruct (Hall (S j) w Hw) as (p' & lo' & hi' & Ha' & Hp' & Hr' & Hb').
  rewrite Nat.add_succ_r in Ha', Hr'. by exists p', lo', hi'.
Qed.

(** [update_with_action] stops with an assertion error at the first control
    variable whose action component is not -1, 0 or 1.  The environment it
    leaves is the one reached after the control variables before it: their
    parameters have been adjusted, every other parameter is as it was, and
    if the first component is the offending one nothing has changed. *)
Theorem update_with_action_rejects_bad_component (a : action) e i v x e1 :
  control_variables mdl !! i = Some v ->
  a !! i = Some x -> x ∉ [-1; 0; 1] ->
  for_each (take i (enumerate (control_variables mdl)))
    (update_with_action_body mdl a) e = (Ok tt, e1) ->
  update_with_action mdl a e = (Raise (AssertionError ""), e1) /\
  (exists P, e1 = with_params P e /\
     forall w, w ∉ take i (control_variables mdl) ->
       P !! w = current_internal_params (model e) !! w) /\
  (i = 0%nat -> e1 = e).
Proof.
  intros Hv Ha Hx Hpre. split; [|split].
  - unfold update_with_action.
    pose proof (lookup_enumerate_from (control_variables mdl) 0 i v Hv) as Hi.
    rewrite <- (take_drop_middle (enumerate (control_variables mdl)) i (i, v)) by exact Hi.
    rewrite for_each_app, (bind_Ok _ _ _ _ _ Hpre). cbn.
    by rewrite (bind_Raise _ _ _ _ _ (update_body_raises mdl a i v e1 x Ha Hx)).
  - unfold enumerate in Hpre. rewrite take_enumerate_from in Hpre.
    by apply update_loop_frame in Hpre.
  - intros ->. cbn in Hpre. by injection Hpre.
Qed.

(** However [update_with_action] ends, it has changed only parameters of
    control variables: the environment it leaves is the one it started from
    with another parameter dict, which agrees with the former one outside
    the control variables. *)
Theorem update_with_action_touches_control_parameters_only (a : action) e :
  exists P,
    (update_with_action mdl a e).2 = with_params P e /\
    forall w, w ∉ control_variables mdl ->
      P !! w = current_internal_params (model e) !! w.
Proof.
  destruct (update_with_action mdl a e) as [r e'] eqn:Hu.
  unfold update_with_action, enumerate in Hu.
  by apply update_loop_frame in Hu.
Qed.

(** The neutral action on parameters that lie within their ranges changes
    nothing at all: [update_with_action] returns and leaves the environment
    as it was. *)
Theorem update_with_action_neutral_is_identity (a : action) e :
  (forall i v, control_variables mdl !! i = Some v ->
     exists p lo hi,
       a !! i = Some 0 /\
       current_internal_params (model e) !! v = Some p /\
       control_variables_ranges mdl !! i = Some (lo, hi) /\
       (lo <= p)%Q /\ (p <= hi)%Q) ->
  update_with_action mdl a e = (Ok tt, e).
Proof. intros Hall. by apply update_loop_neutral. Qed.

End ActionApplicationMore.

Lemma update_with_action_rejects_bad_component_witness :
  update_with_action Toy.world [1; 2] (Toy.make 3 0) =
    (Raise (AssertionError ""),
     Toy.exec (for_each (take 1 (enumerate (control_variables Toy.world)))
                 (update_with_action_body Toy.world [1; 2])) (Toy.make 3 0)).
Proof.
  apply (update_with_action_rejects_bad_component Toy.world [1; 2] (Toy.make 3 0)
           1 "BRN"%string 2).
  - done.
  - done.
  - intros Hin. apply (bool_decide_pack _) in Hin. by vm_compute in Hin.
  - by vm_compute.
Defined.

Lemma update_with_action_neutral_is_identity_witness :
  update_with_action Toy.world [0; 0] (Toy.make 3 0) = (Ok tt, Toy.make 3 0).
Proof.
  apply (update_with_action_neutral_is_identity Toy.world [0; 0] (Toy.make 3 0)).
  intros [|[|i]] v Hv; [| |done]; injection Hv as <-.
  - exists 1%Q, 0%Q, 2%Q. repeat split; done.
  - exists (1 # 25)%Q, 0%Q, 1%Q. repeat split; done.
Defined.

(** * More on [step] *)

Section StepMore.

Context {H : Type} (mdl : BaseModel H) (cf : BaseCostFunction).
Implicit Types e : Env H.

Lemma step_jump_of a e o e' :
  step mdl cf a e = (Ok o, e') ->
  exists t0, t e = Some t0 /\
    jump_of e' = Some (Z.min (time_resolution e) (simulation_horizon e - t0)).
Proof.
  intros Hs.
  assert (Hj : jump_of e' = jump_of (step_advance mdl e).2).
  { change e' with (Ok o, e').2. rewrite <- Hs, step_unfold.
    apply bind_frame. intros _. by apply frame_step_rest. }
  apply step_phases in Hs as (e1&?&?&?&?&?&?&H1&_).
  rewrite H1 in Hj. cbn in Hj.
  apply step_advance_inv in H1 as (t0 & Ht0 & _ & Hj1 & _).
  exists t0. split; [done|]. by rewrite Hj.
Qed.

Lemma update_previous_inv e e' s :
  _update_previous_env_state e = (Ok tt, e') ->
  env_state e = Some s ->
  previous_env_state e' = Some s /\
  previous_env_state_labelled e' = env_state_labelled e /\
  env_state_labelled e <> None.
Proof.
  unfold _update_previous_env_state, bind, get; cbn. intros Hp Hs.
  rewrite Hs in Hp; cbn in Hp.
  destruct (env_state_labelled e) as [l|]; cbn in Hp; [|done].
  by injection Hp as <-.
Qed.


(** The clock of a returning [step]: it advances by
    [min(time_resolution, simulation_horizon - t)], which is recorded in
    [jump_of]; it never passes the horizon, does not go back when the
    resolution is not negative and the horizon not yet passed, and [done]
    is returned exactly when the clock has reached the horizon. *)
Theorem step_clock_and_done (a : action) e o e' :
  step mdl cf a e = (Ok o, e') ->
  exists t0 t1,
    t e = Some t0 /\ t e' = Some t1 /\
    t1 = t0 + Z.min (time_resolution e) (simulation_horizon e - t0) /\
    jump_of e' = Some (t1 - t0) /\
    t1 <= simulation_horizon e /\
    (0 <= time_resolution e -> t0 <= simulation_horizon e -> t0 <= t1) /\
    (out_done o = true <-> t1 = simulation_horizon e).
Proof.
  intros Hs. pose proof (step_jump_of a e o e' Hs) as (t0' & Ht0' & Hj).
  apply step_history in Hs as (t0 & h & h' & Ht0 & _ & Hstep).
  cbv zeta in Hstep. destruct Hstep as (Ht1 & _ & _ & _ & _ & _ & Hdone).
  rewrite Ht0 in Ht0'. injection Ht0' as <-.
  exists t0, (t0 + Z.min (time_resolution e) (simulation_horizon e - t0)).
  split; [done|]. split; [done|]. split; [done|].
  split; [rewrite Hj; f_equal; lia|]. split; [lia|]. split; [lia|].
  rewrite Hdone, bool_decide_eq_true. lia.
Qed.

(** The transition that a returning [step] leaves: the previous state is the
    state the environment had before the step, as a vector and as a
    labelled mapping. *)
Theorem step_previous_is_former_state (a : action) e o e' s :
  step mdl cf a e = (Ok o, e') ->
  env_state e = Some s ->
  previous_env_state e' = Some s /\
  previous_env_state_labelled e' = env_state_labelled e.
Proof.
  intros Hs He.
  apply step_phases in Hs as (e1&e2&e3&cs&e4&e5&e6&H1&H2&H3&H4&H5&H6&H7&H8).
  assert (He1 : env_state e1 = Some s).
  { rewrite <- He. eapply preserves_Ok; [|exact H1]. by apply frame_step_advance. }
  assert (Hl1 : env_state_labelled e1 = env_state_labelled e).
  { eapply preserves_Ok; [|exact H1]. by apply frame_step_advance. }
  destruct (update_previous_inv e1 e2 s H2 He1) as (Hp2 & Hpl2 & _).
  apply update_env_state_inv in H3 as (_ & _ & _ & _ & _ & _ & _ & Hkeep3).
  destruct Hkeep3 as [Hp3 Hpl3]; [by rewrite Hp2|].
  assert (Hp4 : previous_env_state e4 = previous_env_state e3).
  { eapply preserves_Ok; [|exact H5]. by apply frame_accumulate. }
  assert (Hpl4 : previous_env_state_labelled e4 = previous_env_state_labelled e3).
  { eapply preserves_Ok; [|exact H5]. by apply frame_accumulate. }
  apply update_env_state_inv in H6 as (_ & _ & _ & _ & _ & _ & _ & Hkeep5).
  destruct Hkeep5 as [Hp5 Hpl5]; [by rewrite Hp4, Hp3, Hp2|].
  assert (Hp' : previous_env_state e' = previous_env_state e5).
  { rewrite (preserves_Ok previous_env_state _ _ _ _
               (frame_step_finish cf previous_env_state a ltac:(done) ltac:(done)) H8).
    eapply preserves_Ok; [|exact H7]. by apply frame_store_history. }
  assert (Hpl' : previous_env_state_labelled e' = previous_env_state_labelled e5).
  { rewrite (preserves_Ok previous_env_state_labelled _ _ _ _
               (frame_step_finish cf previous_env_state_labelled a
                  ltac:(done) ltac:(done)) H8).
    eapply preserves_Ok; [|exact H7]. by apply frame_store_history. }
  split.
  - by rewrite Hp', Hp5, Hp4, Hp3.
  - by rewrite Hpl', Hpl5, Hpl4, Hpl3, Hpl2.
Qed.



End StepMore.

(** * More on [reset] *)

Section ResetMore.

Context {H : Type} (mdl : BaseModel H) (cf : BaseCostFunction).
Implicit Types e : Env H.




Lemma reset_begin_fresh e e' :
  reset_begin mdl cf e = (Ok tt, e') ->
  exists es ms,
    env_state e' = Some es /\ model_state e' = Some ms /\
    t e' = Some 0 /\
    cumulative_costs e' = replicate (nb_costs cf) 0%Q /\
    history e' =
      Some {| h_env_states := [es]; h_model_states := [ms]; h_env_timesteps := [0];
              h_actions := []; h_aggregated_costs := []; h_costs := [] |}.
Proof.
  intros Hr. apply reset_begin_phases in Hr as (e1&e2&e3&H1&H2&H3&H4).
  apply reset_head_inv in H1 as (Hh1 & Ht1 & Hc1).
  assert (Hpre : forall X (f : Env H -> X),
            (forall x e0, f (set_previous_env_state x e0) = f e0) ->
            (forall x e0, f (set_previous_env_state_labelled x e0) = f e0) ->
            (forall x e0, f (set_env_state x e0) = f e0) ->
            (forall x e0, f (set_env_state_labelled x e0) = f e0) ->
            f e3 = f e1).
  { intros X f ? ? ? ?.
    rewrite (preserves_Ok f _ _ _ _ (frame_update_env_state mdl cf f
               ltac:(done) ltac:(done) ltac:(done) ltac:(done)) H3).
    by rewrite (preserves_Ok f _ _ _ _ (frame_update_previous_env_state f
               ltac:(done) ltac:(done)) H2). }
  assert (Hpost : forall X (f : Env H -> X),
            (forall x e0, f (set_history x e0) = f e0) -> f e' = f e3).
  { intros X f ?. eapply preserves_Ok; [|exact H4]. by apply frame_reset_tail. }
  apply reset_tail_inv in H4 as (h & es & ms & t0 & Hh3 & Hes & Hms & Ht3 & Hh').
  rewrite (Hpre _ history), Hh1 in Hh3 by done. injection Hh3 as <-.
  rewrite (Hpre _ t), Ht1 in Ht3 by done. injection Ht3 as <-.
  exists es, ms.
  rewrite (Hpost _ env_state), (Hpost _ model_state), (Hpost _ t),
    (Hpost _ cumulative_costs) by done.
  rewrite (Hpre _ t), (Hpre _ cumulative_costs) by done.
  done.
Qed.

(** When [reset] reaches its warm-up, nothing of an earlier episode is
    left in the clock, the cumulative costs or the history: the clock is 0,
    the costs are zero, and the history holds the initial state, the
    initial raw model state and the timestamp 0, and no action or cost. *)
Theorem reset_starts_afresh e e' :
  reset_begin mdl cf e = (Ok tt, e') ->
  t e' = Some 0 /\
  cumulative_costs e' = replicate (nb_costs cf) 0%Q /\
  exists es ms h,
    env_state e' = Some es /\ model_state e' = Some ms /\ history e' = Some h /\
    h_env_states h = [es] /\ h_model_states h = [ms] /\ h_env_timesteps h = [0] /\
    h_actions h = [] /\ h_aggregated_costs h = [] /\ h_costs h = [].
Proof.
  intros Hr. apply reset_begin_fresh in Hr as (es & ms & Hes & Hms & Ht & Hc & Hh).
  split; [done|]. split; [done|].
  exists es, ms. eexists. split; [done|]. split; [done|]. split; [exact Hh|].
  by cbn.
Qed.

End ResetMore.

(** * The clock over an episode *)

Section EpisodeClock.

Context {H : Type} (mdl : BaseModel H) (cf : BaseCostFunction).
Implicit Types e : Env H.

(** One returning [step] at resolution 1, seen from the clock. *)
Lemma step_unit_clock a e o e' t0 h :
  step mdl cf a e = (Ok o, e') ->
  time_resolution e = 1 -> t e = Some t0 -> t0 <= simulation_horizon e ->
  history e = Some h ->
  time_resolution e' = 1 /\ simulation_horizon e' = simulation_horizon e /\
  t e' = Some (Z.min (t0 + 1) (simulation_horizon e)) /\
  out_done o = bool_decide (simulation_horizon e <= t0 + 1) /\
  exists h', history e' = Some h' /\
             length (h_model_states h') = S (length (h_model_states h)).
Proof.
  intros Hs Hres Ht Hle Hh.
  pose proof (preserves_Ok simulation_horizon _ _ _ _
                (frame_step mdl cf _ a static_simulation_horizon) Hs) as Hz.
  pose proof (preserves_Ok time_resolution _ _ _ _
                (frame_step mdl cf _ a static_time_resolution) Hs) as Hr.
  apply step_history in Hs as (t0' & h0 & h' & Ht0 & Hh0 & Hstep).
  rewrite Ht in Ht0. injection Ht0 as <-. rewrite Hh in Hh0. injection Hh0 as <-.
  cbv zeta in Hstep. rewrite Hres in Hstep.
  destruct Hstep as (Ht' & Hh' & _ & _ & _ & Hms & Hdone).
  split; [by rewrite Hr|]. split; [done|].
  split; [rewrite Ht'; f_equal; lia|].
  split; [|by exists h'].
  rewrite Hdone. apply bool_decide_ext. lia.
Qed.

(** The warm-up loop at resolution 1. *)
Lemma warm_loop_clock (l : list Z) : forall e e' t0 h,
  for_each l (fun _ => e0 <- get ;; step mdl cf (replicate (dim_action e0) 0) ;;; ret tt) e
    = (Ok tt, e') ->
  time_resolution e = 1 -> t e = Some t0 -> t0 <= simulation_horizon e ->
  history e = Some h ->
  t e' = Some (Z.min (t0 + Z.of_nat (length l)) (simulation_horizon e)) /\
  exists h', history e' = Some h' /\
    length (h_model_states h') = (length (h_model_states h) + length l)%nat.
Proof.
  induction l as [|x l IH]; intros e e' t0 h Hl Hres Ht Hle Hh.
  - cbn in Hl. injection Hl as <-. cbn. rewrite Z.add_0_r.
    split; [rewrite Ht; f_equal; lia|]. exists h. split; [done|lia].
  - cbn [for_each] in Hl. apply bind_inv in Hl as ([] & e1 & Hb & Hl).
    unfold bind, get in Hb; cbn in Hb.
    destruct (step mdl cf _ e) as [[o|ex] e1'] eqn:Hs; cbn in Hb; [|done].
    injection Hb as ->.
    destruct (step_unit_clock _ _ _ _ _ _ Hs Hres Ht Hle Hh)
      as (Hres1 & Hz1 & Ht1 & _ & h1 & Hh1 & Hms1).
    destruct (IH e1 e' _ h1 Hl Hres1 Ht1) as (Ht' & h' & Hh' & Hms'); [lia|done|].
    split.
    + rewrite Ht', Hz1. f_equal. cbn [length]. lia.
    + exists h'. split; [done|]. rewrite Hms', Hms1. cbn [length]. lia.
Qed.

(** A sequence of steps at resolution 1. *)
Lemma play_clock (acts : list action) : forall e outs e' t0,
  play mdl cf acts e = (Ok outs, e') ->
  time_resolution e = 1 -> t e = Some t0 -> t0 <= simulation_horizon e ->
  history e <> None ->
  length outs = length acts /\
  t e' = Some (Z.min (t0 + Z.of_nat (length acts)) (simulation_horizon e)) /\
  forall k o, outs !! k = Some o ->
    out_done o = bool_decide (simulation_horizon e <= t0 + Z.of_nat k + 1).
Proof.
  unfold play.
  induction acts as [|a acts IH]; intros e outs e' t0 Hp Hres Ht Hle Hh.
  - cbn in Hp. injection Hp as <- <-. cbn. rewrite Z.add_0_r.
    split; [done|]. split; [rewrite Ht; f_equal; lia|]. intros k o [=].
  - cbn [map_m] in Hp. apply bind_inv in Hp as (o1 & e1 & Hs & Hp).
    apply bind_inv in Hp as (os & e2 & Hrest & Hp). injection Hp as <- <-.
    destruct (history e) as [h|] eqn:Hhe; [|done].
    destruct (step_unit_clock _ _ _ _ _ _ Hs Hres Ht Hle Hhe)
      as (Hres1 & Hz1 & Ht1 & Hd1 & h1 & Hh1 & _).
    destruct (IH e1 os e2 _ Hrest Hres1 Ht1) as (Hlen & Ht2 & Hdone);
      [lia|by rewrite Hh1|].
    split; [cbn; by rewrite Hlen|]. split.
    + rewrite Ht2, Hz1. f_equal. cbn [length]. lia.
    + intros [|k] o Hk; cbn in Hk.
      * injection Hk as <-. rewrite Hd1. apply bool_decide_ext. lia.
      * rewrite (Hdone k o Hk), Hz1. apply bool_decide_ext. lia.
Qed.

Lemma reset_clock e o e' :
  reset mdl cf e = (Ok o, e') ->
  time_resolution e = 1 -> 0 <= simulation_horizon e ->
  t e' = Some (Z.min (Z.max 0 (time_action_start e)) (simulation_horizon e)) /\
  exists h, history e' = Some h /\
    length (h_model_states h) = S (Z.to_nat (time_action_start e)).
Proof.
  intros Hr Hres Hz. apply reset_phases in Hr as (e1 & Hb & Hw).
  assert (Hfr : forall X (f : Env H -> X),
            static f -> (forall x e0, f (set_reset_same x e0) = f e0) -> f e1 = f e).
  { intros X f ? ?. eapply preserves_Ok; [|exact Hb]. by apply frame_reset_begin. }
  apply reset_begin_fresh in Hb as (es & ms & _ & _ & Ht1 & _ & Hh1).
  rewrite warm_up_unfold in Hw.
  eapply warm_loop_clock in Hw as (Ht' & h' & Hh' & Hms);
    [|by rewrite (Hfr _ time_resolution) by (by repeat split)|exact Ht1| |exact Hh1].
  2: { rewrite (Hfr _ simulation_horizon) by (by repeat split). done. }
  unfold range in Ht', Hms. rewrite length_seqZ in Ht', Hms.
  rewrite (Hfr _ time_action_start), (Hfr _ simulation_horizon) in * by (by repeat split).
  rewrite Z.sub_0_r in *.
  split; [rewrite Ht'; f_equal; lia|]. exists h'. split; [done|]. by rewrite Hms.
Qed.


(** The usable control length: at resolution 1, with a warm-up that fits in
    the horizon, the steps that follow a returning [reset] return [done]
    from the step number [simulation_horizon - time_action_start] on, and
    not before. *)
Theorem usable_control_length e o e1 (acts : list action) outs e2 :
  reset mdl cf e = (Ok o, e1) ->
  play mdl cf acts e1 = (Ok outs, e2) ->
  time_resolution e = 1 ->
  0 <= time_action_start e <= simulation_horizon e ->
  length outs = length acts /\
  forall k r, outs !! k = Some r ->
    (out_done r = true <->
     simulation_horizon e - time_action_start e <= Z.of_nat k + 1).
Proof.
  intros Hr Hp Hres Hstart.
  pose proof (reset_clock e o e1 Hr Hres ltac:(lia)) as (Ht1 & h & Hh & _).
  replace (Z.min _ _) with (time_action_start e) in Ht1 by lia.
  assert (Hfr : forall X (f : Env H -> X),
            static f -> (forall x e0, f (set_reset_same x e0) = f e0) -> f e1 = f e).
  { intros X f ? ?. eapply preserves_Ok; [|exact Hr]. by apply frame_reset. }
  assert (Hres1 : time_resolution e1 = 1)
    by (by rewrite (Hfr _ time_resolution) by (by repeat split)).
  assert (Hz1 : simulation_horizon e1 = simulation_horizon e)
    by (by rewrite (Hfr _ simulation_horizon) by (by repeat split)).
  destruct (play_clock acts e1 outs e2 _ Hp Hres1 Ht1) as (Hlen & _ & Hdone);
    [lia|by rewrite Hh|].
  split; [done|]. intros k r Hk.
  rewrite (Hdone k r Hk), bool_decide_eq_true, Hz1. lia.
Qed.

End EpisodeClock.

(** * When the state update returns *)

#[local] Set Warnings "-clear-no-such-hyp".

Section UpdateReturns.

Context {H : Type} (mdl : BaseModel H) (cf : BaseCostFunction).
Implicit Types e : Env H.

(** ** [sorted] does not depend on the order of its argument *)

Lemma str_le_alt a b : str_le a b <-> a = b \/ String_as_OT.lt a b.
Proof.
  unfold str_le, String.leb.
  destruct (String.compare a b) eqn:Hc.
  - apply String_as_OT.cmp_eq in Hc. naive_solver.
  - apply String_as_OT.cmp_lt in Hc. naive_solver.
  - split; [done|]. intros [->|Hlt].
    + assert (String.compare b b = Eq) by (by apply String_as_OT.cmp_eq). congruence.
    + apply String_as_OT.cmp_lt in Hlt. unfold String_as_OT.cmp in Hlt. congruence.
Qed.

#[local] Instance str_le_trans : Transitive str_le.
Proof.
  intros a b c Hab Hbc. apply str_le_alt in Hab, Hbc. apply str_le_alt.
  destruct Hab as [->|Hab]; [done|]. destruct Hbc as [<-|Hbc]; [by right|].
  right. by eapply String_as_OT.lt_trans.
Qed.

#[local] Instance str_le_antisym : AntiSymm (=) str_le.
Proof. intros a b. apply String.leb_antisym. Qed.

#[local] Instance str_le_total : Total str_le.
Proof. intros a b. apply String.leb_total. Qed.

Lemma sorted_Permutation (l1 l2 : list string) : l1 ≡ₚ l2 -> sorted l1 = sorted l2.
Proof.
  intros Hp. unfold sorted. apply (Sorted_unique str_le).
  - apply Sorted_merge_sort, _.
  - apply Sorted_merge_sort, _.
  - by rewrite !merge_sort_Permutation.
Qed.

Lemma sorted_keys_of_labels (d : gmap string Q) (l : list string) :
  NoDup l -> dom d = list_to_set l -> sorted (keys d) = sorted l.
Proof.
  intros Hnd Hdom. apply sorted_Permutation. unfold keys. rewrite Hdom.
  by apply elements_list_to_set.
Qed.

(** ** Building the dict *)

Lemma index_elem_of k (l : list string) :
  k ∈ l -> exists i, index k l = Some i /\ (i < length l)%nat.
Proof.
  induction l as [|x l IH]; intros Hk; [by apply elem_of_nil in Hk|]. cbn.
  destruct (decide (x = k)) as [->|Hne].
  - exists 0%nat. split; [done|lia].
  - apply elem_of_cons in Hk as [->|Hk]; [done|].
    destruct (IH Hk) as (i & -> & Hi). exists (S i). split; [done|lia].
Qed.

(** The raw model states the environment can label. *)
Definition raw_ok (s : raw_state) : Prop :=
  (length (internal_states_labels mdl) <= length s)%nat.

(** The labels [__init__] derives, for this model and cost function. *)
Definition the_state_labels : list string :=
  state_labels_for_agent mdl ++ map cumulative_label (seq 0 (nb_costs cf)).

Lemma bind_get {S B} (k : S -> M S B) s : bind get k s = k s s.
Proof. reflexivity. Qed.

Lemma labelled_set_eq (d : gmap string Q) k x e :
  labelled_set k x (set_env_state_labelled (Some d) e)
    = (Ok tt, set_env_state_labelled (Some (<[k := x]> d)) e).
Proof. reflexivity. Qed.

Lemma labelled_build_ok e s :
  (forall k, k ∈ state_labels_for_agent mdl -> k ∈ internal_states_labels mdl) ->
  model_state e = Some s -> raw_ok s ->
  (nb_costs cf <= length (cumulative_costs e))%nat ->
  exists d,
    labelled_build mdl cf e = (Ok tt, set_env_state_labelled (Some d) e) /\
    dom d = list_to_set the_state_labels.
Proof.
  intros Hagent Hs Hraw Hcum. unfold labelled_build.
  rewrite bind_modify.
  pose (I1 := fun (pre : list string) (e' : Env H) =>
    exists d : gmap string Q,
      e' = set_env_state_labelled (Some d) e /\ dom d = list_to_set pre).
  edestruct (for_each_total I1 (state_labels_for_agent mdl)) as (e1 & Hl1 & Hi1);
    [| |rewrite (bind_Ok _ _ _ _ _ Hl1)].
  { intros pre k post e' Hsplit (d & -> & Hdom).
    destruct (index_elem_of k (internal_states_labels mdl)) as (i & Hi & Hlt).
    { apply Hagent. rewrite Hsplit. apply elem_of_app. right. by left. }
    destruct (lookup_lt_is_Some_2 s i) as [x Hx]; [unfold raw_ok in Hraw; lia|].
    exists (set_env_state_labelled (Some (<[k := x]> d)) e). split.
    - rewrite (bind_Ok _ _ _ _ _ (from_option_Some ValueError _ i _ Hi)).
      rewrite bind_get.
      rewrite (bind_Ok _ _ _ _ _ (from_option_Some TypeError _ s _ Hs)).
      rewrite (bind_Ok _ _ _ _ _ (from_option_Some IndexError _ x _ Hx)).
      apply labelled_set_eq.
    - exists (<[k := x]> d). split; [done|].
      rewrite dom_insert_L, Hdom, list_to_set_app_L. set_solver. }
  { exists ∅. split; [done|]. by rewrite dom_empty_L. }
  destruct Hi1 as (d1 & -> & Hdom1).
  pose (I2 := fun (pre : list nat) (e' : Env H) =>
    exists d : gmap string Q,
      e' = set_env_state_labelled (Some d) e /\
      dom d = list_to_set (state_labels_for_agent mdl ++ map cumulative_label pre)).
  edestruct (for_each_total I2 (seq 0 (nb_costs cf))) as (e2 & Hl2 & Hi2);
    [| |rewrite Hl2].
  { intros pre i post e' Hsplit (d & -> & Hdom).
    destruct (lookup_lt_is_Some_2 (cumulative_costs e) i) as [x Hx].
    { assert (Hin : i ∈ seq 0 (nb_costs cf)).
      { rewrite Hsplit. apply elem_of_app. right. by left. }
      apply elem_of_seq in Hin. lia. }
    exists (set_env_state_labelled (Some (<[cumulative_label i := x]> d)) e). split.
    - rewrite bind_get.
      rewrite (bind_Ok _ _ _ _ _ (from_option_Some IndexError _ x _ Hx)).
      apply labelled_set_eq.
    - exists (<[cumulative_label i := x]> d). split; [done|].
      rewrite dom_insert_L, Hdom, map_app, !list_to_set_app_L. cbn. set_solver. }
  { exists d1. split; [done|]. by rewrite app_nil_r. }
  destruct Hi2 as (d2 & -> & Hdom2). by exists d2.
Qed.

Lemma update_env_state_ok e s :
  NoDup the_state_labels ->
  (forall k, k ∈ state_labels_for_agent mdl -> k ∈ internal_states_labels mdl) ->
  state_labels e = the_state_labels ->
  model_state e = Some s -> raw_ok s ->
  (nb_costs cf <= length (cumulative_costs e))%nat ->
  exists e', _update_env_state mdl cf e = (Ok tt, e').
Proof.
  intros Hnd Hagent Hlabels Hs Hraw Hcum.
  destruct (labelled_build_ok e s Hagent Hs Hraw Hcum) as (d & Hb & Hdom).
  rewrite update_env_state_unfold, (bind_Ok _ _ _ _ _ Hb).
  edestruct (labelled_finish_ok (set_env_state_labelled (Some d) e) d) as (v & Hf & _);
    [done| | |eauto].
  - cbn. rewrite Hlabels. by apply sorted_keys_of_labels.
  - cbn. intros k Hk. apply elem_of_dom. rewrite Hdom, <- Hlabels.
    by apply elem_of_list_to_set.
Qed.

End UpdateReturns.

(** * When [step] and [reset] return *)

Section StepReturns.

Context {H : Type} (mdl : BaseModel H) (cf : BaseCostFunction).
Implicit Types e : Env H.

(** Collaborators that fit the environment: distinct labels, agent labels
    known to the model, a model whose steps return raw states that are long
    enough, no more elementary costs than accumulators, and cost functions
    that return (an elementary cost at least one value). *)
Record well_formed : Prop := {
  wf_labels : NoDup (the_state_labels mdl cf);
  wf_agent : forall k, k ∈ state_labels_for_agent mdl -> k ∈ internal_states_labels mdl;
  wf_run : forall s n m, raw_ok mdl s ->
    exists sts s' m',
      run_n_steps mdl (Some s) n m = (Ok sts, m') /\ last sts = Some s' /\ raw_ok mdl s';
  wf_reset : forall m, exists m', model_reset mdl m = (Ok tt, m');
  wf_reset_same : forall m, exists m', model_reset_same_model mdl m = (Ok tt, m');
  wf_current : forall m, exists s m',
    _get_current_state mdl m = (Ok s, m') /\ raw_ok mdl s;
  wf_nb_costs : (length (cf_costs cf) <= nb_costs cf)%nat;
  wf_cost : forall c p s l a j, c ∈ cf_costs cf ->
    exists r x, cost_compute_cost c p s l a j = Ok r /\ head r = Some x;
  wf_aggregate : forall p s l a j, exists r, compute_cost cf p s l a j = Ok r;
}.

(** What [__init__] sets up and never changes afterwards. *)
Record configured e : Prop := {
  cfg_labels : state_labels e = the_state_labels mdl cf;
  cfg_norm : length (normalization_factors e) = length (state_labels e);
  cfg_labelled : env_state e <> None -> env_state_labelled e <> None;
}.

(** An environment on which [step] can be called: configured and reset. *)
Record ready e : Prop := {
  rd_configured : configured e;
  rd_costs : length (cumulative_costs e) = nb_costs cf;
  rd_model : exists s, model_state e = Some s /\ raw_ok mdl s;
  rd_history : history e <> None;
  rd_clock : t e <> None;
  rd_state : exists v, env_state e = Some v /\ length v = length (state_labels e);
}.

Lemma lift_model_Ok {A} (c : M (ModelObj H) A) e a m' :
  c (model e) = (Ok a, m') -> lift_model c e = (Ok a, set_model m' e).
Proof. intros Hc. unfold lift_model. by rewrite Hc. Qed.

Lemma step_advance_ok e t0 s :
  well_formed -> t e = Some t0 -> model_state e = Some s -> raw_ok mdl s ->
  exists e1 s1, step_advance mdl e = (Ok tt, e1) /\
                model_state e1 = Some s1 /\ raw_ok mdl s1.
Proof.
  intros Hwf Ht Hs Hraw.
  unfold step_advance, bind, get, from_option. rewrite Ht. cbn.
  destruct (decide (t0 = 70)) as [->|Hne]; cbn; unfold lift_model; cbn; rewrite Hs;
    match goal with |- context [run_n_steps mdl (Some s) 1 ?m] =>
      destruct (wf_run Hwf s 1 m Hraw) as (sts & s1 & m' & -> & Hlast & Hok)
    end; cbn; rewrite Hlast; cbn; eexists _, s1; (split; [reflexivity|by split]).
Qed.





(** ** The frames of the phases, carried along an equation *)




End StepReturns.

Section EpisodeReturns.

Context {H : Type} (mdl : BaseModel H) (cf : BaseCostFunction).
Implicit Types e : Env H.












End EpisodeReturns.

(** * Construction and sampling *)

Section ConstructionMore.

Context {H : Type} (mdl : BaseModel H) (cf : BaseCostFunction).
Implicit Types e : Env H.

Lemma dict_zip_fold {V} (kvs : list (string * V)) : forall (d : gmap string V) k,
  k ∉ kvs.*1 ->
  fold_left (fun d kv => <[kv.1 := kv.2]> d) kvs d !! k = d !! k.
Proof.
  induction kvs as [|[k' v'] kvs IH]; intros d k Hk; [done|]. cbn in *.
  apply not_elem_of_cons in Hk as [Hne Hk].
  rewrite IH by done. by rewrite lookup_insert_ne.
Qed.

Lemma dict_zip_lookup {V} (ks : list string) : forall (vs : list V) (d : gmap string V) i k v,
  NoDup ks -> ks !! i = Some k -> vs !! i = Some v ->
  fold_left (fun d kv => <[kv.1 := kv.2]> d) (zip ks vs) d !! k = Some v.
Proof.
  induction ks as [|k0 ks IH]; intros vs d i k v Hnd Hk Hv; [done|].
  apply NoDup_cons in Hnd as [Hk0 Hnd].
  destruct vs as [|v0 vs]; [done|]. destruct i as [|i]; cbn in *.
  - injection Hk as ->. injection Hv as ->.
    rewrite dict_zip_fold; [by rewrite lookup_insert_eq|].
    intros Hin. apply Hk0. apply list_elem_of_fmap in Hin as ([k1 v1] & -> & Hin).
    by apply elem_of_zip_l in Hin.
  - by eapply IH.
Qed.

(** [__init__] fails with a division by zero exactly when [time_resolution]
    is 0.  Otherwise the environment it builds has the agent labels of the
    model followed by one cumulative label per cost as [state_labels], a
    normalization factor 1 for each label, zero cumulative costs, no
    history and no clock yet, and, when the labels are distinct, a
    [label_to_id] that sends each label to its position. *)
Theorem init_builds_labels (m : ModelObj H) (horizon start : Z) (shift : Q)
    (resolution : Z) :
  (resolution = 0 ->
     init mdl cf m horizon start shift resolution = Raise ZeroDivisionError) /\
  (resolution <> 0 ->
     exists e,
       init mdl cf m horizon start shift resolution = Ok e /\
       state_labels e =
         state_labels_for_agent mdl ++ map cumulative_label (seq 0 (nb_costs cf)) /\
       normalization_factors e = replicate (length (state_labels e)) 1%Q /\
       cumulative_costs e = replicate (nb_costs cf) 0%Q /\
       _max_episode_steps e = horizon `div` resolution /\
       history e = None /\ t e = None /\ env_state e = None /\
       previous_env_state e = None /\
       (NoDup (state_labels e) ->
          forall i k, state_labels e !! i = Some k -> label_to_id e !! k = Some i)).
Proof.
  unfold init. split; intros Hres; destruct (decide (resolution = 0)); try done.
  eexists. split; [reflexivity|]. cbn. repeat (split; [done|]).
  intros Hnd i k Hk. unfold dict_zip. eapply dict_zip_lookup; [done|exact Hk|].
  apply lookup_seq. split; [done|]. by eapply lookup_lt_Some.
Qed.

(** [sample_action] returns, whatever is drawn, a vector of [dim_action]
    components that are each -1, 0 or 1, and leaves the environment as it
    was. *)
Theorem sample_action_is_valid (rng : nat -> nat) e :
  exists a,
    sample_action rng e = (Ok a, e) /\
    length a = dim_action e /\
    Forall (fun x => x ∈ [-1; 0; 1]) a.
Proof.
  eexists. split; [reflexivity|]. split; [by rewrite length_map, length_seq|].
  apply Forall_fmap, Forall_forall. intros i _.
  change ((nth (rng i mod 3)%nat [-1; 0; 1] 0) ∈ [-1; 0; 1]).
  assert (Hlt : (rng i mod 3 < 3)%nat) by (apply Nat.mod_upper_bound; lia).
  destruct (rng i mod 3)%nat as [|[|[|n]]]; cbn [nth].
  - by left.
  - right. by left.
  - right. right. by left.
  - lia.
Qed.

End ConstructionMore.

(** * The model factory

    [get_model] of [worldoptim/environments/models/get_model.py].  The two
    model classes are not among the sources: their constructors are
    parameters, which return a model or raise. *)

Module GetModel.

Inductive outcome (Model Err : Type) : Type :=
  | Returned (m : Model)
  | AssertionFailed (msg : string)
  | NotImplemented
  | ConstructorRaised (err : Err).
Arguments Returned {Model Err} m.
Arguments AssertionFailed {Model Err} msg.
Arguments NotImplemented {Model Err}.
Arguments ConstructorRaised {Model Err} err.

Definition list_models : list string := ["prague_seirah"; "world2"]%string.

(** [str(l)] for a list of strings without quotes or escapes. *)
Definition str_of_list (l : list string) : string :=
  ("[" +:+ String.concat ", " (map (fun s => "'" +:+ s +:+ "'") l) +:+ "]")%string.

Section Factory.

Context {Model Params Err : Type}.
Context (PragueOdeSeirahModel World2 : Params -> Model + Err).

Definition construct (c : Params -> Model + Err) (params : Params) : outcome Model Err :=
  match c params with
  | inl m => Returned m
  | inr err => ConstructorRaised err
  end.

(** [get_model] (lines 5-23) *)
Definition get_model (model_id : string) (params : Params) : outcome Model Err :=
  if decide (model_id ∈ list_models) then
    if decide (model_id = "prague_seirah"%string) then
      construct PragueOdeSeirahModel params
    else if decide (model_id = "world2"%string) then
      construct World2 params
    else NotImplemented
  else AssertionFailed ("Model id should be in " +:+ str_of_list list_models)%string.

(** [get_model] fails its assertion, with the list of the registered
    identifiers in the message, exactly on the identifiers that are not
    registered; on a registered one it is the constructor of that model,
    and the final [NotImplementedError] is never raised. *)
Theorem get_model_dispatch (model_id : string) (params : Params) :
  (model_id ∉ list_models <->
   get_model model_id params =
     AssertionFailed "Model id should be in ['prague_seirah', 'world2']") /\
  (model_id = "prague_seirah"%string ->
   get_model model_id params = construct PragueOdeSeirahModel params) /\
  (model_id = "world2"%string ->
   get_model model_id params = construct World2 params) /\
  get_model model_id params <> NotImplemented.
Proof.
  unfold get_model.
  destruct (decide (model_id ∈ list_models)) as [Hin|Hout].
  - assert (Hcases : model_id = "prague_seirah"%string \/ model_id = "world2"%string).
    { unfold list_models in Hin. set_solver. }
    split; [|split; [|split]].
    + split; [done|]. intros Heq.
      destruct (decide (model_id = "prague_seirah"%string)),
               (decide (model_id = "world2"%string));
        unfold construct in Heq;
        try destruct (PragueOdeSeirahModel params); try destruct (World2 params);
        try discriminate; naive_solver.
    + intros ->. by destruct (decide _).
    + intros ->. destruct (decide _) as [Heq|_]; [discriminate|]. by destruct (decide _).
    + destruct (decide (model_id = "prague_seirah"%string)).
      { unfold construct. by destruct (PragueOdeSeirahModel params). }
      destruct (decide (model_id = "world2"%string)); [|naive_solver].
      unfold construct. by destruct (World2 params).
  - split; [|split; [|split]].
    + split; [done|]. intros _. exact Hout.
    + intros ->. destruct Hout. unfold list_models. set_solver.
    + intros ->. destruct Hout. unfold list_models. set_solver.
    + done.
Qed.

End Factory.

End GetModel.

(** * The small model, run *)

(** One more step from the end of the warm-up of 70. *)
Definition toy_after_70 : Env nat :=
  Toy.exec (step Toy.world Toy.cost Toy.neutral) toy_at_70.
Definition toy_out_70 : StepOut :=
  Toy.value toy_out (step Toy.world Toy.cost Toy.neutral) toy_at_70.

Lemma toy_step_70 :
  step Toy.world Toy.cost Toy.neutral toy_at_70 = (Ok toy_out_70, toy_after_70).
Proof. by vm_compute. Qed.



Lemma toy_second_reset :
  reset_begin Toy.world Toy.cost toy_first_episode = (Ok tt, toy_second_episode).
Proof. by vm_compute. Qed.

Lemma toy_well_formed : well_formed Toy.world Toy.cost.
Proof.
  split.
  - apply (bool_decide_unpack _). by vm_compute.
  - intros k Hk. apply (bool_decide_unpack _).
    cbn in Hk. apply elem_of_cons in Hk as [->|Hk]; [by vm_compute|].
    apply elem_of_cons in Hk as [->|Hk]; [by vm_compute|].
    by apply elem_of_nil in Hk.
  - intros s n m Hraw. eexists _, (Toy.advance m s), _.
    split; [reflexivity|]. split; [reflexivity|].
    unfold raw_ok in *. cbn in *.
    destruct s as [|a [|b [|c [|d s]]]]; cbn in *; lia.
  - intros m. by eexists.
  - intros m. by eexists.
  - intros m. eexists _, _. split; [reflexivity|]. unfold raw_ok. cbn. lia.
  - cbn. lia.
  - intros c p s l a j Hc. cbn in Hc.
    apply elem_of_cons in Hc as [->|Hc]; [by eexists _, _|].
    apply elem_of_cons in Hc as [->|Hc]; [by eexists _, _|].
    by apply elem_of_nil in Hc.
  - intros p s l a j. by eexists.
Qed.

Lemma toy_ready_70 : ready Toy.world Toy.cost toy_at_70.
Proof.
  split; [split| | | | |].
  - by vm_compute.
  - by vm_compute.
  - intros _. by vm_compute.
  - by vm_compute.
  - exists (default [] (model_state toy_at_70)). split; [by vm_compute|].
    unfold raw_ok. vm_compute. lia.
  - by vm_compute.
  - by vm_compute.
  - exists (default [] (env_state toy_at_70)). split; by vm_compute.
Qed.

Lemma step_clock_and_done_witness :
  exists t0 t1,
    t toy_at_70 = Some t0 /\ t toy_after_70 = Some t1 /\
    t1 <= simulation_horizon toy_at_70.
Proof.
  destruct (step_clock_and_done Toy.world Toy.cost Toy.neutral toy_at_70
              toy_out_70 toy_after_70 toy_step_70)
    as (t0 & t1 & H0 & H1 & _ & _ & Hle & _).
  exists t0, t1. exact (conj H0 (conj H1 Hle)).
Defined.

Lemma step_previous_is_former_state_witness :
  previous_env_state toy_after_70 = Some (default [] (env_state toy_at_70)).
Proof.
  refine (proj1 (step_previous_is_former_state Toy.world Toy.cost Toy.neutral
                   toy_at_70 toy_out_70 toy_after_70 _ toy_step_70 _)).
  by vm_compute.
Defined.




Lemma reset_starts_afresh_witness :
  t toy_second_episode = Some 0 /\
  cumulative_costs toy_second_episode = replicate (nb_costs Toy.cost) 0%Q.
Proof.
  destruct (reset_starts_afresh Toy.world Toy.cost toy_first_episode
              toy_second_episode toy_second_reset) as (Ht & Hc & _).
  exact (conj Ht Hc).
Defined.


Lemma usable_control_length_witness :
  length (Toy.value [] (play Toy.world Toy.cost [Toy.neutral; Toy.neutral; Toy.neutral])
            (Toy.exec (reset Toy.world Toy.cost) (Toy.make 3 0))) = 3%nat.
Proof.
  refine (proj1 (usable_control_length Toy.world Toy.cost (Toy.make 3 0)
                   (Toy.value [] (reset Toy.world Toy.cost) (Toy.make 3 0))
                   (Toy.exec (reset Toy.world Toy.cost) (Toy.make 3 0))
                   [Toy.neutral; Toy.neutral; Toy.neutral]
                   (Toy.value [] (play Toy.world Toy.cost
                                    [Toy.neutral; Toy.neutral; Toy.neutral])
                      (Toy.exec (reset Toy.world Toy.cost) (Toy.make 3 0)))
                   toy_first_episode _ _ _ _)).
  - by vm_compute.
  - by vm_compute.
  - by vm_compute.
  - by vm_compute.
Defined.



Lemma init_builds_labels_witness :
  exists e, init Toy.world Toy.cost Toy.obj0 3 1 (1 # 20) 1 = Ok e /\
    state_labels e = ["P"; "QL"; "cumulative_cost_0"; "cumulative_cost_1"]%string.
Proof.
  destruct (proj2 (init_builds_labels Toy.world Toy.cost Toy.obj0 3 1 (1 # 20) 1))
    as (e & Hinit & Hlabels & _); [lia|].
  exists e. split; [exact Hinit|]. rewrite Hlabels. by vm_compute.
Defined.

Lemma get_model_dispatch_witness :
  GetModel.get_model (fun _ : unit => inl 1%nat) (fun _ : unit => @inl nat unit 2%nat)
    "world2" tt = GetModel.Returned 2%nat.
Proof.
  refine (proj1 (proj2 (proj2 (GetModel.get_model_dispatch
            (fun _ : unit => inl 1%nat) (fun _ : unit => @inl nat unit 2%nat)
            "world2" tt))) _).
  reflexivity.
Defined.

(** * The values of the state vector *)

Section StateValues.

Context {H : Type} (mdl : BaseModel H) (cf : BaseCostFunction).
Implicit Types e : Env H.

Lemma cumulative_label_inj i j : cumulative_label i = cumulative_label j -> i = j.
Proof.
  unfold cumulative_label. intros Hij.
  apply (inj (String.append "cumulative_cost_")) in Hij.
  by apply (inj pretty) in Hij.
Qed.

(** The dict that lines 79-85 build, value by value. *)
Lemma labelled_build_values e s :
  NoDup (the_state_labels mdl cf) ->
  (forall k, k ∈ state_labels_for_agent mdl -> k ∈ internal_states_labels mdl) ->
  model_state e = Some s -> raw_ok mdl s ->
  (nb_costs cf <= length (cumulative_costs e))%nat ->
  exists d,
    labelled_build mdl cf e = (Ok tt, set_env_state_labelled (Some d) e) /\
    (forall k j, k ∈ state_labels_for_agent mdl ->
       index k (internal_states_labels mdl) = Some j -> d !! k = s !! j) /\
    (forall i, (i < nb_costs cf)%nat ->
       d !! cumulative_label i = cumulative_costs e !! i).
Proof.
  intros Hnd Hagent Hs Hraw Hcum. unfold the_state_labels in Hnd.
  apply NoDup_app in Hnd as (Hnd1 & Hdisj & Hnd2).
  unfold labelled_build. rewrite bind_modify.
  pose (I1 := fun (pre : list string) (e' : Env H) =>
    exists d : gmap string Q,
      e' = set_env_state_labelled (Some d) e /\
      (forall k j, k ∈ pre ->
         index k (internal_states_labels mdl) = Some j -> d !! k = s !! j)).
  edestruct (for_each_total I1 (state_labels_for_agent mdl)) as (e1 & Hl1 & Hi1);
    [| |rewrite (bind_Ok _ _ _ _ _ Hl1)].
  { intros pre k post e' Hsplit (d & -> & Hval).
    destruct (index_elem_of k (internal_states_labels mdl)) as (i & Hi & Hlt).
    { apply Hagent. rewrite Hsplit. apply elem_of_app. right. by left. }
    destruct (lookup_lt_is_Some_2 s i) as [x Hx]; [unfold raw_ok in Hraw; lia|].
    exists (set_env_state_labelled (Some (<[k := x]> d)) e). split.
    - rewrite (bind_Ok _ _ _ _ _ (from_option_Some ValueError _ i _ Hi)).
      rewrite bind_get.
      rewrite (bind_Ok _ _ _ _ _ (from_option_Some TypeError _ s _ Hs)).
      rewrite (bind_Ok _ _ _ _ _ (from_option_Some IndexError _ x _ Hx)).
      apply labelled_set_eq.
    - exists (<[k := x]> d). split; [done|]. intros k' j Hk' Hj.
      destruct (decide (k' = k)) as [->|Hne].
      + rewrite lookup_insert_eq. rewrite Hi in Hj. injection Hj as <-.
        symmetry. exact Hx.
      + rewrite lookup_insert_ne by done. apply Hval; [|done].
        apply elem_of_app in Hk' as [Hk'|Hk']; [done|].
        apply list_elem_of_singleton in Hk'. done. }
  { exists ∅. split; [done|]. intros k j Hk. by apply elem_of_nil in Hk. }
  destruct Hi1 as (d1 & -> & Hval1).
  pose (I2 := fun (pre : list nat) (e' : Env H) =>
    exists d : gmap string Q,
      e' = set_env_state_labelled (Some d) e /\
      (forall k j, k ∈ state_labels_for_agent mdl ->
         index k (internal_states_labels mdl) = Some j -> d !! k = s !! j) /\
      (forall i, i ∈ pre -> d !! cumulative_label i = cumulative_costs e !! i)).
  edestruct (for_each_total I2 (seq 0 (nb_costs cf))) as (e2 & Hl2 & Hi2);
    [| |rewrite Hl2].
  { intros pre i post e' Hsplit (d & -> & Hag & Hcv).
    assert (Hin : i ∈ seq 0 (nb_costs cf)).
    { rewrite Hsplit. apply elem_of_app. right. by left. }
    destruct (lookup_lt_is_Some_2 (cumulative_costs e) i) as [x Hx].
    { apply elem_of_seq in Hin. lia. }
    exists (set_env_state_labelled (Some (<[cumulative_label i := x]> d)) e). split.
    - rewrite bind_get.
      rewrite (bind_Ok _ _ _ _ _ (from_option_Some IndexError _ x _ Hx)).
      apply labelled_set_eq.
    - exists (<[cumulative_label i := x]> d). split; [done|]. split.
      + intros k j Hk Hj. rewrite lookup_insert_ne; [by apply Hag|].
        intros Heq. apply (Hdisj k Hk). rewrite <- Heq.
        apply list_elem_of_fmap. by exists i.
      + intros i' Hi'. destruct (decide (i' = i)) as [->|Hne].
        * rewrite lookup_insert_eq. done.
        * rewrite lookup_insert_ne; [|by intros Heq%cumulative_label_inj].
          apply Hcv. apply elem_of_app in Hi' as [Hi'|Hi']; [done|].
          apply list_elem_of_singleton in Hi'. done. }
  { exists d1. split; [done|]. split; [done|]. intros i Hi. by apply elem_of_nil in Hi. }
  destruct Hi2 as (d2 & -> & Hag2 & Hcv2). exists d2. split; [done|]. split; [done|].
  intros i Hi. apply Hcv2. apply elem_of_seq. lia.
Qed.

(** What a returning state update stores, under the same conditions. *)
Lemma update_env_state_values e e' s :
  NoDup (the_state_labels mdl cf) ->
  (forall k, k ∈ state_labels_for_agent mdl -> k ∈ internal_states_labels mdl) ->
  state_labels e = the_state_labels mdl cf ->
  model_state e = Some s -> raw_ok mdl s ->
  (nb_costs cf <= length (cumulative_costs e))%nat ->
  _update_env_state mdl cf e = (Ok tt, e') ->
  exists v,
    env_state e' = Some v /\
    (forall p k j, state_labels_for_agent mdl !! p = Some k ->
       index k (internal_states_labels mdl) = Some j -> v !! p = s !! j) /\
    (forall i, (i < nb_costs cf)%nat ->
       v !! (length (state_labels_for_agent mdl) + i)%nat = cumulative_costs e !! i).
Proof.
  intros Hnd Hagent Hlabels Hs Hraw Hcum Hu.
  destruct (labelled_build_values e s Hnd Hagent Hs Hraw Hcum) as (d & Hb & Hag & Hcv).
  rewrite update_env_state_unfold, (bind_Ok _ _ _ _ _ Hb) in Hu.
  apply labelled_finish_inv in Hu as (d' & v & Hd' & _ & HF & ->).
  cbn in Hd'. injection Hd' as <-. cbn in HF. rewrite Hlabels in HF.
  exists v. split; [unfold stored; by destruct (previous_env_state _)|]. split.
  - intros p k j Hk Hj.
    assert (Hk' : the_state_labels mdl cf !! p = Some k).
    { unfold the_state_labels. rewrite lookup_app_l; [done|]. by eapply lookup_lt_Some. }
    destruct (Forall2_lookup_l _ _ _ _ _ HF Hk') as (x & -> & Hx).
    rewrite <- Hx. apply Hag; [|done]. by eapply list_elem_of_lookup_2.
  - intros i Hi.
    assert (Hk' : the_state_labels mdl cf
                    !! (length (state_labels_for_agent mdl) + i)%nat
                  = Some (cumulative_label i)).
    { unfold the_state_labels. rewrite lookup_app_r by lia.
      replace (length (state_labels_for_agent mdl) + i
               - length (state_labels_for_agent mdl))%nat with i by lia.
      rewrite list_lookup_fmap, lookup_seq_lt by done. done. }
    destruct (Forall2_lookup_l _ _ _ _ _ HF Hk') as (x & -> & Hx).
    rewrite <- Hx. by apply Hcv.
Qed.

(** After a returning [step] on a reset environment of well-formed
    collaborators, the state vector is made of the raw model state read at
    the positions of the agent labels, followed by the cumulative costs as
    they are after this step. *)
Theorem step_state_vector (a : action) e o e' :
  well_formed mdl cf -> ready mdl cf e ->
  step mdl cf a e = (Ok o, e') ->
  exists s v,
    model_state e' = Some s /\ env_state e' = Some v /\
    (forall p k j, state_labels_for_agent mdl !! p = Some k ->
       index k (internal_states_labels mdl) = Some j -> v !! p = s !! j) /\
    (forall i, (i < nb_costs cf)%nat ->
       v !! (length (state_labels_for_agent mdl) + i)%nat = cumulative_costs e' !! i).
Proof.
  intros Hwf [[Hlab Hnorm Hlabelled] Hcum (s & Hs & Hraw) Hh Ht _] Hstep.
  apply step_phases in Hstep as (e1&e2&e3&cs&e4&e5&e6&H1&H2&H3&H4&H5&H6&H7&H8).
  destruct (t e) as [t0|] eqn:Ht0; [|done].
  destruct (step_advance_ok mdl cf e t0 s Hwf Ht0 Hs Hraw) as (e1' & s1 & H1' & Hs1 & Hraw1).
  rewrite H1 in H1'. injection H1' as <-.
  assert (Hpre : forall X (f : Env H -> X),
            (forall x e0, f (set_previous_env_state x e0) = f e0) ->
            (forall x e0, f (set_previous_env_state_labelled x e0) = f e0) ->
            (forall x e0, f (set_env_state x e0) = f e0) ->
            (forall x e0, f (set_env_state_labelled x e0) = f e0) ->
            (forall x e0, f (set_cumulative_costs x e0) = f e0) ->
            f e4 = f e1).
  { intros X f ? ? ? ? ?.
    rewrite (preserves_Ok f _ _ _ _ (frame_accumulate f cs ltac:(done)) H5).
    rewrite (preserves_Ok f _ _ _ _ (frame_update_env_state mdl cf f
               ltac:(done) ltac:(done) ltac:(done) ltac:(done)) H3).
    by rewrite (preserves_Ok f _ _ _ _ (frame_update_previous_env_state f
               ltac:(done) ltac:(done)) H2). }
  assert (Hl1 : state_labels e1 = state_labels e).
  { eapply preserves_Ok; [|exact H1]. by apply frame_step_advance. }
  assert (Hc1 : cumulative_costs e1 = cumulative_costs e).
  { eapply preserves_Ok; [|exact H1]. by apply frame_step_advance. }
  assert (Hc3 : cumulative_costs e3 = cumulative_costs e1).
  { rewrite (preserves_Ok cumulative_costs _ _ _ _
               (frame_update_env_state mdl cf cumulative_costs
                  ltac:(done) ltac:(done) ltac:(done) ltac:(done)) H3).
    eapply preserves_Ok; [|exact H2]. by apply frame_update_previous_env_state. }
  assert (Hc4 : length (cumulative_costs e4) = nb_costs cf).
  { rewrite accumulate_unfold in H5.
    apply accumulate_loop_inv in H5 as (cs' & -> & Hl & _). cbn.
    by rewrite Hl, Hc3, Hc1. }
  destruct (update_env_state_values e4 e5 s1) as (v & Hv & Hag & Hcv);
    [exact (wf_labels _ _ Hwf)|exact (wf_agent _ _ Hwf)|
     by rewrite (Hpre _ state_labels), Hl1 by done|
     by rewrite (Hpre _ model_state) by done|done|lia|exact H6|].
  assert (Hpost : forall X (f : Env H -> X),
            (forall x e0, f (set_history x e0) = f e0) ->
            (forall x e0, f (set_costs x e0) = f e0) -> f e' = f e5).
  { intros X f ? ?.
    rewrite (preserves_Ok f _ _ _ _ (frame_step_finish cf f a ltac:(done) ltac:(done)) H8).
    eapply preserves_Ok; [|exact H7]. by apply frame_store_history. }
  assert (Hm5 : model_state e5 = model_state e4).
  { eapply preserves_Ok; [|exact H6]. by apply frame_update_env_state. }
  assert (Hc5 : cumulative_costs e5 = cumulative_costs e4).
  { eapply preserves_Ok; [|exact H6]. by apply frame_update_env_state. }
  exists s1, v.
  rewrite (Hpost _ model_state), (Hpost _ env_state), (Hpost _ cumulative_costs) by done.
  split; [by rewrite Hm5, (Hpre _ model_state) by done|]. split; [done|].
  split; [done|]. intros i Hi. rewrite Hc5. by apply Hcv.
Qed.

End StateValues.

Lemma step_state_vector_witness :
  exists s v,
    model_state toy_after_70 = Some s /\ env_state toy_after_70 = Some v /\
    forall i, (i < nb_costs Toy.cost)%nat ->
      v !! (length (state_labels_for_agent Toy.world) + i)%nat
        = cumulative_costs toy_after_70 !! i.
Proof.
  destruct (step_state_vector Toy.world Toy.cost Toy.neutral toy_at_70 toy_out_70
              toy_after_70 toy_well_formed toy_ready_70 toy_step_70)
    as (s & v & Hs & Hv & _ & Hc).
  exists s, v. exact (conj Hs (conj Hv Hc)).
Defined.

(** * When the label assertion fires *)

Section LabelAssertion.

Context {H : Type} (mdl : BaseModel H) (cf : BaseCostFunction).
Implicit Types e : Env H.

Lemma sorted_NoDup (l : list string) : NoDup (sorted l) <-> NoDup l.
Proof. unfold sorted. by rewrite merge_sort_Permutation. Qed.

Lemma index_not_elem_of k (l : list string) : k ∉ l -> index k l = None.
Proof.
  induction l as [|x l IH]; intros Hk; [done|]. cbn.
  apply not_elem_of_cons in Hk as [Hne Hk].
  destruct (decide (x = k)) as [->|_]; [done|]. by rewrite IH.
Qed.

(** For a model that knows the agent labels and returns long enough raw
    states, the state update returns exactly when the labels of
    [state_labels] are distinct; with a repeated label it raises the
    assertion error ["labels do not match"], after having replaced the
    labelled state by the dict it built. *)
Theorem update_env_state_returns_iff_distinct e s :
  (forall k, k ∈ state_labels_for_agent mdl -> k ∈ internal_states_labels mdl) ->
  state_labels e = the_state_labels mdl cf ->
  model_state e = Some s -> raw_ok mdl s ->
  (nb_costs cf <= length (cumulative_costs e))%nat ->
  ((exists e', _update_env_state mdl cf e = (Ok tt, e')) <-> NoDup (state_labels e)) /\
  (~ NoDup (state_labels e) ->
   exists d, _update_env_state mdl cf e =
               (Raise (AssertionError "labels do not match"),
                set_env_state_labelled (Some d) e)).
Proof.
  intros Hagent Hlabels Hs Hraw Hcum.
  destruct (labelled_build_ok mdl cf e s Hagent Hs Hraw Hcum) as (d & Hb & Hdom).
  assert (Hiff : sorted (keys d) = sorted (state_labels e) <-> NoDup (state_labels e)).
  { split.
    - intros Heq. apply sorted_NoDup. rewrite <- Heq. apply sorted_NoDup.
      unfold keys. apply NoDup_elements.
    - intros Hnd. apply sorted_keys_of_labels; [done|]. by rewrite Hlabels. }
  split; [split|].
  - intros (e' & Hu). apply Hiff.
    rewrite update_env_state_unfold, (bind_Ok _ _ _ _ _ Hb) in Hu.
    by apply labelled_finish_inv in Hu as (d' & v & [= <-] & Hsort & _).
  - intros Hnd. rewrite Hlabels in Hnd.
    by apply (update_env_state_ok mdl cf e s).
  - intros Hdup. exists d.
    rewrite update_env_state_unfold, (bind_Ok _ _ _ _ _ Hb).
    unfold labelled_finish. rewrite bind_get. cbn.
    destruct (decide _) as [Heq|_]; [by apply Hiff in Heq|done].
Qed.

(** An agent label that the model does not have among its internal labels
    makes the state update raise [ValueError], whatever else holds, as soon
    as it is the first of the agent labels. *)
Theorem update_env_state_unknown_label e k rest :
  state_labels_for_agent mdl = k :: rest ->
  k ∉ internal_states_labels mdl ->
  _update_env_state mdl cf e =
    (Raise ValueError, set_env_state_labelled (Some ∅) e).
Proof.
  intros Hagent Hk. unfold _update_env_state. rewrite bind_modify, Hagent.
  cbn [for_each]. unfold bind at 1 2 3. by rewrite (index_not_elem_of k _ Hk).
Qed.

End LabelAssertion.

Lemma update_env_state_returns_iff_distinct_witness :
  (exists e', _update_env_state Toy.world Toy.cost toy_at_70 = (Ok tt, e')) <->
  NoDup (state_labels toy_at_70).
Proof.
  refine (proj1 (update_env_state_returns_iff_distinct Toy.world Toy.cost toy_at_70
                   (default [] (model_state toy_at_70)) _ _ _ _ _)).
  - exact (wf_agent _ _ toy_well_formed).
  - by vm_compute.
  - by vm_compute.
  - unfold raw_ok. vm_compute. lia.
  - vm_compute. lia.
Defined.

(** A model whose first agent label is not one of its internal labels. *)
Definition toy_unknown_label : BaseModel nat :=
  {| model_stochastic := false;
     state_labels_for_agent := ["DR"; "P"]%string;
     internal_states_labels := internal_states_labels Toy.world;
     control_variables := control_variables Toy.world;
     control_variables_ranges := control_variables_ranges Toy.world;
     model_reset := model_reset Toy.world;
     model_reset_same_model := model_reset_same_model Toy.world;
     _get_current_state := _get_current_state Toy.world;
     run_n_steps := run_n_steps Toy.world |}.

Lemma update_env_state_unknown_label_witness :
  _update_env_state toy_unknown_label Toy.cost toy_at_70 =
    (Raise ValueError, set_env_state_labelled (Some ∅) toy_at_70).
Proof.
  apply (update_env_state_unknown_label toy_unknown_label Toy.cost toy_at_70
           "DR"%string ["P"%string]).
  - reflexivity.
  - intros Hin. apply (bool_decide_pack _) in Hin. by vm_compute in Hin.
Defined.

(** * What [step] records and returns *)

Section StepRecords.

Context {H : Type} (mdl : BaseModel H) (cf : BaseCostFunction).
Implicit Types e : Env H.

Lemma step_finish_result a e o e' :
  step_finish cf a e = (Ok o, e') ->
  exists p s j h,
    previous_env_state e = Some p /\ env_state e = Some s /\
    jump_of e = Some j /\ history e = Some h /\
    compute_cost cf p s (label_to_id e) a j
      = Ok (out_cost_aggregated o, out_costs o, out_constraints o) /\
    costs e' = Some (out_costs o) /\
    history e' =
      Some (add_costs (times (map (fun c => c / inject_Z j)%Q (out_costs o)) j)
             (add_aggregated_costs (times (out_cost_aggregated o / inject_Z j)%Q j) h)).
Proof.
  unfold step_finish, history_load, history_store, bind, get, lift_res; cbn.
  destruct (previous_env_state e) as [p|]; cbn; [|done].
  destruct (env_state e) as [s|]; cbn; [|done].
  destruct (jump_of e) as [j|]; cbn; [|done].
  destruct (compute_cost cf p s _ a j) as [[[agg cs] over]|ex] eqn:Hc; cbn; [|done].
  destruct (history e) as [h|]; cbn; [|done].
  destruct (t e) as [t1|]; cbn; [|done].
  unfold _normalize_env_state, bind, get; cbn.
  destruct (decide _) as [Hlen|]; cbn; [|done].
  intros [= <- <-]. cbn. by exists p, s, j, h.
Qed.

(** The aggregated cost, the costs and the constraint flags that a
    returning [step] returns are those the aggregator computes from the
    transition the environment holds afterwards (previous state, current
    state), [label_to_id], the action and the time jump of this step; the
    costs are also kept in [costs]. *)
Theorem step_returns_aggregator_output (a : action) e o e' :
  step mdl cf a e = (Ok o, e') ->
  exists p s j,
    previous_env_state e' = Some p /\ env_state e' = Some s /\
    jump_of e' = Some j /\
    compute_cost cf p s (label_to_id e') a j
      = Ok (out_cost_aggregated o, out_costs o, out_constraints o) /\
    costs e' = Some (out_costs o).
Proof.
  intros Hs.
  apply step_phases in Hs as (e1&e2&e3&cs&e4&e5&e6&H1&H2&H3&H4&H5&H6&H7&H8).
  assert (Hfr : forall X (f : Env H -> X),
            (forall x e0, f (set_history x e0) = f e0) ->
            (forall x e0, f (set_costs x e0) = f e0) -> f e' = f e6).
  { intros X f ? ?. eapply preserves_Ok; [|exact H8]. by apply frame_step_finish. }
  apply step_finish_result in H8 as (p & s & j & h & Hp & Hs & Hj & _ & Hc & Hcosts & _).
  exists p, s, j.
  rewrite (Hfr _ previous_env_state), (Hfr _ env_state), (Hfr _ jump_of),
    (Hfr _ label_to_id) by done.
  done.
Qed.

(** What a returning [step] appends to the history, with [j] its time jump:
    [j] copies of the action, [j] copies of the new state, the timestamps
    from the former clock on, one raw model state, and [j] copies of the
    aggregated cost and of the cost vector, each divided by [j]. *)
Theorem step_history_record (a : action) e o e' :
  step mdl cf a e = (Ok o, e') ->
  exists h t0 j s ms,
    history e = Some h /\ t e = Some t0 /\ jump_of e' = Some j /\
    env_state e' = Some s /\ model_state e' = Some ms /\
    history e' =
      Some {| h_env_states := h_env_states h ++ times s j;
              h_model_states := h_model_states h ++ [ms];
              h_env_timesteps := h_env_timesteps h ++ range t0 (t0 + j);
              h_actions := h_actions h ++ times a j;
              h_aggregated_costs :=
                h_aggregated_costs h ++ times (out_cost_aggregated o / inject_Z j)%Q j;
              h_costs :=
                h_costs h ++ times (map (fun c => c / inject_Z j)%Q (out_costs o)) j |}.
Proof.
  intros Hs. pose proof (step_history mdl cf a e o e' Hs) as (t0 & h & h' & Ht0 & Hh & Hst).
  cbv zeta in Hst. destruct Hst as (Ht' & _).
  apply step_phases in Hs as (e1&e2&e3&cs&e4&e5&e6&H1&H2&H3&H4&H5&H6&H7&H8).
  assert (Hfr8 : forall X (f : Env H -> X),
            (forall x e0, f (set_history x e0) = f e0) ->
            (forall x e0, f (set_costs x e0) = f e0) -> f e' = f e6).
  { intros X f ? ?. eapply preserves_Ok; [|exact H8]. by apply frame_step_finish. }
  assert (Hfr7 : forall X (f : Env H -> X),
            (forall x e0, f (set_history x e0) = f e0) -> f e6 = f e5).
  { intros X f ?. eapply preserves_Ok; [|exact H7]. by apply frame_store_history. }
  assert (Hpre : forall X (f : Env H -> X),
            (forall x e0, f (set_previous_env_state x e0) = f e0) ->
            (forall x e0, f (set_previous_env_state_labelled x e0) = f e0) ->
            (forall x e0, f (set_env_state x e0) = f e0) ->
            (forall x e0, f (set_env_state_labelled x e0) = f e0) ->
            (forall x e0, f (set_cumulative_costs x e0) = f e0) ->
            f e5 = f e1).
  { intros X f ? ? ? ? ?.
    rewrite (preserves_Ok f _ _ _ _ (frame_update_env_state mdl cf f
               ltac:(done) ltac:(done) ltac:(done) ltac:(done)) H6).
    rewrite (preserves_Ok f _ _ _ _ (frame_accumulate f cs ltac:(done)) H5).
    rewrite (preserves_Ok f _ _ _ _ (frame_update_env_state mdl cf f
               ltac:(done) ltac:(done) ltac:(done) ltac:(done)) H3).
    by rewrite (preserves_Ok f _ _ _ _ (frame_update_previous_env_state f
               ltac:(done) ltac:(done)) H2). }
  assert (Hh1 : history e1 = history e).
  { eapply preserves_Ok; [|exact H1]. by apply frame_step_advance. }
  apply step_advance_inv in H1 as (t0' & Ht0' & Ht1 & Hj1 & _).
  rewrite Ht0 in Ht0'. injection Ht0' as <-. cbv zeta in Ht1, Hj1.
  apply store_history_inv in H7 as (h5 & j & s & t1 & ms & Hh5 & Hj5 & Hs5 & Ht5 & Hm5 & Hh6).
  rewrite (Hpre _ history), Hh1, Hh in Hh5 by done. injection Hh5 as <-.
  rewrite (Hpre _ t), Ht1 in Ht5 by done. injection Ht5 as <-.
  apply step_finish_result in H8 as (p & s6 & j6 & h6 & _ & _ & Hj6 & Hh6' & _ & _ & Hh').
  rewrite (Hfr7 _ jump_of), Hj5 in Hj6 by done. injection Hj6 as <-.
  rewrite Hh6 in Hh6'. injection Hh6' as <-.
  exists h, t0, j, s, ms.
  rewrite (Hfr8 _ jump_of), (Hfr7 _ jump_of), (Hfr8 _ env_state), (Hfr7 _ env_state),
    (Hfr8 _ model_state), (Hfr7 _ model_state) by done.
  repeat (split; [done|]). rewrite Hh'. cbn.
  assert (Hj : j = Z.min (time_resolution e) (simulation_horizon e - t0)).
  { rewrite (Hpre _ jump_of), Hj1 in Hj5 by done. by injection Hj5. }
  subst j. set (m := Z.min (time_resolution e) (simulation_horizon e - t0)).
  by replace (t0 + m - m) with t0 by lia.
Qed.

(** The warm-up of [reset] is forced neutral: after a returning [reset]
    every action in the history is the all-zero vector of length
    [dim_action]. *)
Lemma warm_loop_actions (l : list Z) : forall e e' h,
  for_each l (fun _ => e0 <- get ;; step mdl cf (replicate (dim_action e0) 0) ;;; ret tt) e
    = (Ok tt, e') ->
  history e = Some h -> Forall (eq (replicate (dim_action e) 0)) (h_actions h) ->
  exists h', history e' = Some h' /\
             Forall (eq (replicate (dim_action e) 0)) (h_actions h').
Proof.
  induction l as [|x l IH]; intros e e' h Hl Hh Hall.
  - cbn in Hl. injection Hl as <-. by exists h.
  - cbn [for_each] in Hl. apply bind_inv in Hl as ([] & e1 & Hb & Hl).
    unfold bind, get in Hb; cbn in Hb.
    destruct (step mdl cf _ e) as [[o|ex] e1'] eqn:Hs; cbn in Hb; [|done].
    injection Hb as ->.
    pose proof (preserves_Ok dim_action _ _ _ _
                  (frame_step mdl cf _ _ static_dim_action) Hs) as Hdim.
    apply step_history in Hs as (t0 & h0 & h1 & _ & Hh0 & Hst).
    rewrite Hh in Hh0. injection Hh0 as <-.
    cbv zeta in Hst. destruct Hst as (_ & Hh1 & Hacts & _).
    rewrite <- Hdim. eapply (IH e1 e' h1 Hl Hh1).
    rewrite Hdim, Hacts. apply Forall_app. split; [done|].
    unfold times. by apply Forall_replicate.
Qed.

Theorem reset_warm_up_is_neutral e o e' :
  reset mdl cf e = (Ok o, e') ->
  exists h, history e' = Some h /\
            Forall (eq (replicate (dim_action e) 0)) (h_actions h).
Proof.
  intros Hr. apply reset_phases in Hr as (e1 & Hb & Hw).
  assert (Hdim : dim_action e1 = dim_action e).
  { eapply preserves_Ok; [|exact Hb]. by apply frame_reset_begin. }
  apply reset_begin_fresh in Hb as (es & ms & _ & _ & _ & _ & Hh1).
  rewrite warm_up_unfold in Hw. rewrite <- Hdim.
  eapply warm_loop_actions; [exact Hw|exact Hh1|]. cbn. constructor.
Qed.

End StepRecords.

Lemma step_returns_aggregator_output_witness :
  costs toy_after_70 = Some (out_costs toy_out_70).
Proof.
  destruct (step_returns_aggregator_output Toy.world Toy.cost Toy.neutral toy_at_70
              toy_out_70 toy_after_70 toy_step_70) as (p & s & j & _ & _ & _ & _ & Hc).
  exact Hc.
Defined.

Lemma step_history_record_witness :
  exists h t0 j, history toy_at_70 = Some h /\ t toy_at_70 = Some t0 /\
                 jump_of toy_after_70 = Some j.
Proof.
  destruct (step_history_record Toy.world Toy.cost Toy.neutral toy_at_70
              toy_out_70 toy_after_70 toy_step_70)
    as (h & t0 & j & s & ms & Hh & Ht & Hj & _).
  exists h, t0, j. exact (conj Hh (conj Ht Hj)).
Defined.

Lemma reset_warm_up_is_neutral_witness :
  exists h, history toy_at_70 = Some h /\
            Forall (eq (replicate (dim_action (Toy.make 200 70)) 0)) (h_actions h).
Proof.
  apply (reset_warm_up_is_neutral Toy.world Toy.cost (Toy.make 200 70)
           (Toy.value [] (reset Toy.world Toy.cost) (Toy.make 200 70)) toy_at_70).
  by vm_compute.
Defined.
